(** * Vanilla NeRF: the field module and the two-stage graph

    A shallow embedding of [mattport/nerf/graph/vanilla_nerf.py]: the
    class [NeRFField] (construction and [forward]) and the class
    [NeRFGraph] (construction, [get_param_groups], [get_outputs] and
    [get_loss_dict]).

    Python floats are read as real numbers, tensors as nested lists whose
    innermost list is the last (channel) dimension, dictionaries as finite
    maps, and objects with identity (torch parameters) as records carrying
    an allocation number. *)

From Stdlib Require Import Reals Lra.
From stdpp Require Import base option list gmap strings pretty.

(** ** Exceptions and the state-and-exception monad *)

Inductive Exn :=
  | ConfigurationError
  | KeyError
  | AttributeError.

Inductive Result (A : Type) :=
  | Ok (a : A)
  | Raise (e : Exn).
Arguments Ok {A} a.
Arguments Raise {A} e.

(** A computation over a mutable state [S] that returns or raises; the
    state reached when an exception is raised is kept, as in Python. *)
Definition M (S A : Type) : Type := S → Result A * S.

#[export] Instance M_ret {S} : MRet (M S) := λ A a s, (Ok a, s).

#[export] Instance M_bind {S} : MBind (M S) := λ A B k m s,
  match m s with
  | (Ok a, s') => k a s'
  | (Raise e, s') => (Raise e, s')
  end.

Definition raise {S A} (e : Exn) : M S A := λ s, (Raise e, s).

Definition gets {S A} (f : S → A) : M S A := λ s, (Ok (f s), s).

Definition modify {S} (f : S → S) : M S () := λ s, (Ok (), f s).

(** [d[k]] on a dictionary. *)
Definition getitem {S K V} `{Countable K} (d : gmap K V) (k : K) : M S V :=
  match d !! k with
  | Some v => mret v
  | None => raise KeyError
  end.

(** ** Tensors *)

(** The last dimension of a tensor: one feature (or channel) vector. *)
Definition Vec : Type := list R.

(** A per-sample tensor, indexed [ray][sample][channel]. *)
Definition SampleTensor : Type := list (list Vec).

(** A per-ray tensor, indexed [ray][channel]. *)
Definition RayTensor : Type := list Vec.

(** A module applied to a per-sample tensor acts on the last dimension. *)
Definition tmap {A B} (f : A → B) (x : list (list A)) : list (list B) :=
  fmap (M:=list) (fmap (M:=list) f) x.

(** [torch.cat(tensors, dim=-1)] on per-sample tensors of one batch shape:
    the channel vectors are appended in the order of the list. *)
Fixpoint torch_cat (tensors : list SampleTensor) : SampleTensor :=
  match tensors with
  | [] => []
  | [x] => x
  | x :: rest => zip_with (zip_with app) x (torch_cat rest)
  end.

(** ** Parameters and layers *)

(** A [torch.nn.Parameter] object; [param_id] is its identity (the number
    of the allocation that created it). *)
Record Param := { param_id : nat }.

(** A linear layer owns a weight and a bias. *)
Record Linear := { weight : Param; bias : Param }.

(** The store of parameter objects: the next free identity. *)
Definition Heap : Type := nat.

Definition new_parameter : M Heap Param :=
  λ next, (Ok {| param_id := next |}, S next).

Definition new_linear : M Heap Linear :=
  w ← new_parameter;
  b ← new_parameter;
  mret {| weight := w; bias := b |}.

Fixpoint new_layers (n : nat) : M Heap (list Linear) :=
  match n with
  | 0 => mret []
  | S n' =>
      l ← new_linear;
      ls ← new_layers n';
      mret (l :: ls)
  end.

(** ** Field modules *)

(** The keys of a field's output dictionary.  The source names [RGB] and
    [DENSITY]; the enumeration has further members, which this file never
    produces and which are kept apart by a tag. *)
Inductive FieldHeadNames :=
  | RGB
  | DENSITY
  | OtherHead (tag : positive).

#[export] Instance FieldHeadNames_eq_dec : EqDecision FieldHeadNames.
Proof. solve_decision. Defined.

#[export] Instance FieldHeadNames_countable : Countable FieldHeadNames.
Proof.
  refine (inj_countable'
    (λ n, match n with
          | RGB => inl true
          | DENSITY => inl false
          | OtherHead tag => inr tag
          end)
    (λ c, match c with
          | inl true => RGB
          | inl false => DENSITY
          | inr tag => OtherHead tag
          end) _).
  by intros [].
Defined.

(** The value a field returns: output kind to per-sample tensor. *)
Abbreviation FieldOutputs := (gmap FieldHeadNames SampleTensor).

(** Modelled from the spec: the class [NeRFEncoding] of
    [mattport.nerf.field_modules.encoding] is absent; it has no learned
    parameters, and its output dimension is [D*(1+2F)] with the raw input
    included and [D*2F] without. *)
Record NeRFEncoding := {
  in_dim : nat;
  num_frequencies : nat;
  min_freq_exp : R;
  max_freq_exp : R;
  include_input : bool;
}.

Definition NeRFEncoding_get_out_dim (e : NeRFEncoding) : nat :=
  if include_input e
  then in_dim e * (1 + 2 * num_frequencies e)
  else in_dim e * (2 * num_frequencies e).

Inductive Activation := ReLU.

(** Modelled from the spec: the class [MLP] of
    [mattport.nerf.field_modules.mlp] is absent; it is a feed-forward
    network of [num_layers] linear layers with a set of skip-connection
    layer indices, and its construction fails when a skip index lies
    outside [0, num_layers). *)
Record MLP := {
  mlp_in_dim : nat;
  mlp_out_dim : nat;
  mlp_num_layers : nat;
  mlp_layer_width : nat;
  mlp_skip_connections : list Z;
  mlp_activation : Activation;
  mlp_layers : list Linear;
}.

Definition skip_index_ok (num_layers : nat) (i : Z) : bool :=
  bool_decide (0 ≤ i)%Z && bool_decide (i < Z.of_nat num_layers)%Z.

Definition MLP_init (in_dim out_dim num_layers layer_width : nat)
    (skip_connections : list Z) (activation : Activation) : M Heap MLP :=
  if forallb (skip_index_ok num_layers) skip_connections
  then
    layers ← new_layers num_layers;
    mret {| mlp_in_dim := in_dim;
            mlp_out_dim := out_dim;
            mlp_num_layers := num_layers;
            mlp_layer_width := layer_width;
            mlp_skip_connections := skip_connections;
            mlp_activation := activation;
            mlp_layers := layers |}
  else raise ConfigurationError.

Definition MLP_get_out_dim (m : MLP) : nat := mlp_out_dim m.

Definition MLP_parameters (m : MLP) : list Param :=
  l ← mlp_layers m; [weight l; bias l].

(** Modelled from the spec: the classes [RGBFieldHead] and
    [DensityFieldHead] of [mattport.nerf.field_modules.field_heads] are
    absent; each is a linear map followed by an activation, to 3 scalars
    for the colour and to 1 scalar for the density, and each is tagged
    with the output kind under which its result is stored. *)
Record RGBFieldHead := {
  rgb_head_in_dim : nat;
  rgb_head_net : Linear;
}.

Record DensityFieldHead := {
  density_head_in_dim : nat;
  density_head_net : Linear;
}.

Definition RGBFieldHead_init (in_dim : nat) : M Heap RGBFieldHead :=
  net ← new_linear;
  mret {| rgb_head_in_dim := in_dim; rgb_head_net := net |}.

Definition DensityFieldHead_init (in_dim : nat) : M Heap DensityFieldHead :=
  net ← new_linear;
  mret {| density_head_in_dim := in_dim; density_head_net := net |}.

Definition RGBFieldHead_parameters (h : RGBFieldHead) : list Param :=
  [weight (rgb_head_net h); bias (rgb_head_net h)].

Definition DensityFieldHead_parameters (h : DensityFieldHead) : list Param :=
  [weight (density_head_net h); bias (density_head_net h)].

(** ** The class [NeRFField] *)

Record NeRFField := {
  num_layers : nat;
  layer_width : nat;
  skip_connections : list Z;
  encoding_xyz : NeRFEncoding;
  encoding_dir : NeRFEncoding;
  mlp_base : MLP;
  mlp_rgb : MLP;
  field_output_rgb : RGBFieldHead;
  field_output_density : DensityFieldHead;
}.

Definition build_encodings : NeRFEncoding * NeRFEncoding :=
  ({| in_dim := 3; num_frequencies := 10; min_freq_exp := 0;
      max_freq_exp := 8; include_input := true |},
   {| in_dim := 3; num_frequencies := 4; min_freq_exp := 0;
      max_freq_exp := 4; include_input := true |}).

Definition build_mlp_base (num_layers layer_width : nat)
    (skip_connections : list Z) (encoding_xyz : NeRFEncoding) : M Heap MLP :=
  MLP_init (NeRFEncoding_get_out_dim encoding_xyz) layer_width num_layers
    layer_width skip_connections ReLU.

Definition build_mlp_rgb (layer_width : nat) (mlp_base : MLP)
    (encoding_dir : NeRFEncoding) : M Heap MLP :=
  MLP_init (MLP_get_out_dim mlp_base + NeRFEncoding_get_out_dim encoding_dir)
    (layer_width / 2) 2 (layer_width / 2) [] ReLU.

Definition build_heads (mlp_rgb mlp_base : MLP)
    : M Heap (RGBFieldHead * DensityFieldHead) :=
  rgb ← RGBFieldHead_init (MLP_get_out_dim mlp_rgb);
  density ← DensityFieldHead_init (MLP_get_out_dim mlp_base);
  mret (rgb, density).

(** [NeRFField.__init__]: the attributes are set in the order of the source
    and the four builders run one after the other. *)
Definition NeRFField_init (num_layers layer_width : nat)
    (skip_connections : list Z) : M Heap NeRFField :=
  let '(encoding_xyz, encoding_dir) := build_encodings in
  mlp_base ← build_mlp_base num_layers layer_width skip_connections encoding_xyz;
  mlp_rgb ← build_mlp_rgb layer_width mlp_base encoding_dir;
  heads ← build_heads mlp_rgb mlp_base;
  mret {| num_layers := num_layers;
          layer_width := layer_width;
          skip_connections := skip_connections;
          encoding_xyz := encoding_xyz;
          encoding_dir := encoding_dir;
          mlp_base := mlp_base;
          mlp_rgb := mlp_rgb;
          field_output_rgb := heads.1;
          field_output_density := heads.2 |}.

(** [NeRFField()]: the defaults [num_layers=8], [layer_width=256],
    [skip_connections=(4,)]. *)
Definition NeRFField_new : M Heap NeRFField := NeRFField_init 8 256 [4%Z].

(** [nn.Module.parameters()]: the parameters of the sub-modules in the
    order in which [__init__] registered them (the encodings have none). *)
Definition NeRFField_parameters (f : NeRFField) : list Param :=
  MLP_parameters (mlp_base f) ++ MLP_parameters (mlp_rgb f)
  ++ RGBFieldHead_parameters (field_output_rgb f)
  ++ DensityFieldHead_parameters (field_output_density f).

(** ** Rays and samples *)

(** Modelled from the spec: the class [RayBundle] of
    [mattport.structures.rays] is absent; a ray has an origin and a
    direction.  The near and far bounds are those the graph hands to its
    uniform sampler. *)
Record Ray := {
  origin : Vec;
  ray_direction : Vec;
}.

Definition RayBundle : Type := list Ray.

(** Modelled from the spec: the class [RaySamples] of
    [mattport.structures.rays] is absent; a sample has a 3D position, a
    direction, a scalar depth [t] and the boundaries of its interval. *)
Record RaySample := {
  position : Vec;
  direction : Vec;
  t : R;
  bin_lower : R;
  bin_upper : R;
}.

(** Samples indexed [ray][sample]; the attributes of the class are the
    per-sample tensors read off them. *)
Definition RaySamples : Type := list (list RaySample).

Definition positions (s : RaySamples) : SampleTensor := tmap position s.
Definition directions (s : RaySamples) : SampleTensor := tmap direction s.
Definition ts (s : RaySamples) : list (list R) := tmap t s.
Definition deltas (s : RaySamples) : list (list R) :=
  tmap (λ x, bin_upper x - bin_lower x)%R s.

(** The invariant the intervals of a [RaySamples] keep: boundaries in
    increasing order. *)
Definition intervals_ordered (s : RaySamples) : Prop :=
  Forall (Forall (λ x, bin_lower x <= bin_upper x)%R) s.

Definition Rsum (l : list R) : R := foldr Rplus 0%R l.

(** Modelled from the spec: [RaySamples.get_weights] is absent.  Alpha is
    [1 - exp(-density * interval_length)]; the weight of a sample is its
    alpha times the transmittance, the product of [1 - alpha] over the
    samples before it, which is 1 at the first sample. *)
Definition alpha (delta density : R) : R := (1 - exp (- (density * delta)))%R.

Fixpoint composite (transmittance : R) (alphas : list R) : list R :=
  match alphas with
  | [] => []
  | a :: rest =>
      (a * transmittance)%R :: composite (transmittance * (1 - a))%R rest
  end.

Definition ray_weights (deltas densities : list R) : list R :=
  composite 1%R (zip_with alpha deltas densities).

(** [densities[..., 0]]: the single channel of a density tensor. *)
Definition channel0 (x : SampleTensor) : list (list R) := tmap (hd 0%R) x.

Definition get_weights (s : RaySamples) (densities : SampleTensor)
    : list (list R) :=
  zip_with ray_weights (deltas s) (channel0 densities).

(** ** Samplers *)

(** The source of jitter: an explicit generator, here the sequence of the
    numbers it will draw. *)
Definition Rng : Type := nat → R.

Definition draw (n : nat) (g : Rng) : list R * Rng :=
  (g <$> seq 0 n, λ i, g (n + i)).

Definition vscale (c : R) (v : Vec) : Vec := (λ x, c * x)%R <$> v.
Definition vadd (u v : Vec) : Vec := zip_with Rplus u v.

(** Modelled from the spec: the class [UniformSampler] of
    [mattport.nerf.sampler] is absent.  The interval from the near to the
    far plane is divided into [num_samples] bins and one sample is placed
    in each, at the fraction of the bin that the generator draws. *)
Record UniformSampler := {
  us_near_plane : R;
  us_far_plane : R;
  us_num_samples : nat;
}.

Definition bin_edge (s : UniformSampler) (i : nat) : R :=
  (us_near_plane s
   + INR i * ((us_far_plane s - us_near_plane s) / INR (us_num_samples s)))%R.

Definition sample_in_bin (s : UniformSampler) (r : Ray) (i : nat) (u : R)
    : RaySample :=
  let lower := bin_edge s i in
  let upper := bin_edge s (S i) in
  let depth := (lower + u * (upper - lower))%R in
  {| position := vadd (origin r) (vscale depth (ray_direction r));
     direction := ray_direction r;
     t := depth;
     bin_lower := lower;
     bin_upper := upper |}.

Fixpoint UniformSampler_call (s : UniformSampler) (ray_bundle : RayBundle)
    (g : Rng) : RaySamples * Rng :=
  match ray_bundle with
  | [] => ([], g)
  | r :: rest =>
      let '(us, g1) := draw (us_num_samples s) g in
      let '(samples, g2) := UniformSampler_call s rest g1 in
      (imap (sample_in_bin s r) us :: samples, g2)
  end.

(** The class [PDFSampler] of [mattport.nerf.sampler] is absent; only its
    configuration is kept, and what it computes is a parameter of the
    development (see [Numerics]). *)
Record PDFSampler := { pdf_num_samples : nat }.

(** ** Renderers *)

(** Modelled from the spec: [colors.WHITE] of [mattport.structures.colors]
    is absent; the white background is the colour (1,1,1). *)
Definition WHITE : Vec := [1; 1; 1]%R.

(** Modelled from the spec: the classes [RGBRenderer],
    [AccumulationRenderer] and [DepthRenderer] of
    [mattport.nerf.renderers] are absent.  The colour of a ray is the
    weighted sum of the colours of its samples, plus the background colour
    weighted by [1 - sum(weights)] when one is configured; its depth is
    the weighted sum of the [t] of its samples; its accumulation is the
    sum of its weights. *)
Record RGBRenderer := { background_color : option Vec }.
Inductive AccumulationRenderer := mkAccumulationRenderer.
Inductive DepthRenderer := mkDepthRenderer.

(** The value a renderer returns; a renderer sets the attribute it
    computes and leaves the others empty. *)
Record RendererOutputs := {
  rgb : RayTensor;
  accumulation : RayTensor;
  depth : RayTensor;
}.

Definition weighted_colour (weights : list R) (colours : list Vec) : Vec :=
  foldr vadd [0; 0; 0]%R (zip_with vscale weights colours).

Definition render_ray (r : RGBRenderer) (colours : list Vec)
    (weights : list R) : Vec :=
  match background_color r with
  | None => weighted_colour weights colours
  | Some background =>
      vadd (weighted_colour weights colours)
        (vscale (1 - Rsum weights)%R background)
  end.

Definition RGBRenderer_call (r : RGBRenderer) (rgb : SampleTensor)
    (weights : list (list R)) : RendererOutputs :=
  {| rgb := zip_with (render_ray r) rgb weights;
     accumulation := [];
     depth := [] |}.

Definition AccumulationRenderer_call (r : AccumulationRenderer)
    (weights : list (list R)) : RendererOutputs :=
  {| rgb := [];
     accumulation := (λ w, [Rsum w]) <$> weights;
     depth := [] |}.

Definition DepthRenderer_call (r : DepthRenderer) (weights : list (list R))
    (ts : list (list R)) : RendererOutputs :=
  {| rgb := [];
     accumulation := [];
     depth := zip_with (λ w x, [Rsum (zip_with Rmult w x)]) weights ts |}.

(** The class [MSELoss] of [mattport.nerf.loss] is absent; what it
    computes is a parameter of the development (see [Numerics]). *)
Inductive MSELoss := mkMSELoss.

(** ** What the absent modules compute

    The numerical behaviour of the modules whose code is absent is a
    parameter: every definition below that calls one of them takes it from
    this class, and every theorem holds for all its instances.  The
    current values of the learned parameters are part of the instance: a
    forward pass reads them and never writes them. *)
Class Numerics := {
  (** [NeRFEncoding.forward] on one coordinate vector *)
  NeRFEncoding_call : NeRFEncoding → Vec → Vec;
  (** [MLP.forward] on one feature vector *)
  MLP_call : MLP → Vec → Vec;
  (** the linear map and activation of the colour head *)
  RGBFieldHead_net : RGBFieldHead → Vec → R * R * R;
  (** the linear map and activation of the density head *)
  DensityFieldHead_net : DensityFieldHead → Vec → R;
  (** [PDFSampler.forward] *)
  PDFSampler_call :
    PDFSampler → RaySamples → list (list R) → Rng → RaySamples * Rng;
  (** [MSELoss.forward] *)
  MSELoss_call : MSELoss → RayTensor → RayTensor → R;
  (** [Graph.get_aggregated_loss_from_loss_dict] of the absent base class *)
  get_aggregated_loss_from_loss_dict : gmap string R → R;
}.

(** The colour vector of a sample, from the triple a head computes. *)
Definition colour_of (c : R * R * R) : Vec := let '(r, g, b) := c in [r; g; b].

(** [dict.update]: the entries of [other] replace those of [d]. *)
Definition update {K V} `{Countable K} (d other : gmap K V) : gmap K V :=
  other ∪ d.

Section field_forward.
Context `{Numerics}.

(** A head returns a dictionary with one entry, under its own kind. *)
Definition RGBFieldHead_call (h : RGBFieldHead) (x : SampleTensor)
    : FieldOutputs :=
  {[ RGB := tmap (λ v, colour_of (RGBFieldHead_net h v)) x ]}.

Definition DensityFieldHead_call (h : DensityFieldHead) (x : SampleTensor)
    : FieldOutputs :=
  {[ DENSITY := tmap (λ v, [DensityFieldHead_net h v]) x ]}.

Definition encoded_xyz (self : NeRFField) (ray_samples : RaySamples)
    : SampleTensor :=
  tmap (NeRFEncoding_call (encoding_xyz self)) (positions ray_samples).

Definition encoded_dir (self : NeRFField) (ray_samples : RaySamples)
    : SampleTensor :=
  tmap (NeRFEncoding_call (encoding_dir self)) (directions ray_samples).

Definition base_mlp_out (self : NeRFField) (ray_samples : RaySamples)
    : SampleTensor :=
  tmap (MLP_call (mlp_base self)) (encoded_xyz self ray_samples).

(** The argument of [self.mlp_rgb] in [forward]. *)
Definition mlp_rgb_input (self : NeRFField) (ray_samples : RaySamples)
    : SampleTensor :=
  torch_cat [encoded_dir self ray_samples; base_mlp_out self ray_samples].

Definition rgb_mlp_out (self : NeRFField) (ray_samples : RaySamples)
    : SampleTensor :=
  tmap (MLP_call (mlp_rgb self)) (mlp_rgb_input self ray_samples).

(** [NeRFField.forward] *)
Definition NeRFField_forward (self : NeRFField) (ray_samples : RaySamples)
    : FieldOutputs :=
  let field_rgb_output :=
    RGBFieldHead_call (field_output_rgb self) (rgb_mlp_out self ray_samples) in
  let field_density_out :=
    DensityFieldHead_call (field_output_density self)
      (base_mlp_out self ray_samples) in
  let field_outputs := ∅ in
  let field_outputs := update field_outputs field_rgb_output in
  let field_outputs := update field_outputs field_density_out in
  field_outputs.
End field_forward.

(** The density and the colour the field computes at one sample. *)
Definition density_at `{Numerics} (self : NeRFField) (x : RaySample) : R :=
  DensityFieldHead_net (field_output_density self)
    (MLP_call (mlp_base self)
       (NeRFEncoding_call (encoding_xyz self) (position x))).

Definition colour_at `{Numerics} (self : NeRFField) (x : RaySample)
    : R * R * R :=
  RGBFieldHead_net (field_output_rgb self)
    (MLP_call (mlp_rgb self)
       (NeRFEncoding_call (encoding_dir self) (direction x)
        ++ MLP_call (mlp_base self)
             (NeRFEncoding_call (encoding_xyz self) (position x)))).

(** ** The class [NeRFGraph] *)

(** The attributes of a graph object.  Those that [__init__] sets to
    [None], and those that exist only once [populate_modules] has run, are
    optional; reading one that is not set raises.  The three metric objects
    of [torchmetrics] are not read by the methods below and are left out. *)
Record NeRFGraph := {
  near_plane : R;
  far_plane : R;
  num_coarse_samples : nat;
  num_importance_samples : nat;
  field_coarse : option NeRFField;
  field_fine : option NeRFField;
  sampler_uniform : option UniformSampler;
  sampler_pdf : option PDFSampler;
  renderer_rgb : option RGBRenderer;
  renderer_accumulation : option AccumulationRenderer;
  renderer_depth : option DepthRenderer;
  rgb_loss : option MSELoss;
}.

(** The calls a forward pass makes, in the order it makes them. *)
Inductive Call :=
  | CallSamplerUniform
  | CallSamplerPDF
  | CallFieldCoarse
  | CallFieldFine
  | CallGetWeights
  | CallRendererRGB
  | CallRendererAccumulation
  | CallRendererDepth.

(** The state a method of the graph runs in: the object itself, the store
    of parameter objects, the generator of the samplers and the log of the
    calls made so far. *)
Record World := {
  self_ : NeRFGraph;
  heap : Heap;
  rng : Rng;
  calls : list Call;
}.

Definition with_self (f : NeRFGraph → NeRFGraph) (w : World) : World :=
  {| self_ := f (self_ w); heap := heap w; rng := rng w; calls := calls w |}.

(** Run an allocation in the store of the world. *)
Definition allocate {A} (m : M Heap A) : M World A := λ w,
  let '(r, h) := m (heap w) in
  (r, {| self_ := self_ w; heap := h; rng := rng w; calls := calls w |}).

(** Run a sampler on the generator of the world. *)
Definition sample {A} (f : Rng → A * Rng) : M World A := λ w,
  let '(a, g) := f (rng w) in
  (Ok a, {| self_ := self_ w; heap := heap w; rng := g; calls := calls w |}).

Definition log (c : Call) : M World () := λ w,
  (Ok (), {| self_ := self_ w; heap := heap w; rng := rng w;
             calls := calls w ++ [c] |}).

(** [self.name] *)
Definition getattr {A} (name : NeRFGraph → option A) : M World A := λ w,
  match name (self_ w) with
  | Some a => (Ok a, w)
  | None => (Raise AttributeError, w)
  end.

(** [self.name = value], one setter per attribute that is assigned. *)
Definition setattr (f : NeRFGraph → NeRFGraph) : M World () :=
  modify (with_self f).

Definition set_field_coarse (v : NeRFField) (g : NeRFGraph) : NeRFGraph :=
  {| near_plane := near_plane g; far_plane := far_plane g;
     num_coarse_samples := num_coarse_samples g; num_importance_samples := num_importance_samples g;
     field_coarse := Some v; field_fine := field_fine g;
     sampler_uniform := sampler_uniform g; sampler_pdf := sampler_pdf g;
     renderer_rgb := renderer_rgb g; renderer_accumulation := renderer_accumulation g;
     renderer_depth := renderer_depth g; rgb_loss := rgb_loss g |}.

Definition set_field_fine (v : NeRFField) (g : NeRFGraph) : NeRFGraph :=
  {| near_plane := near_plane g; far_plane := far_plane g;
     num_coarse_samples := num_coarse_samples g; num_importance_samples := num_importance_samples g;
     field_coarse := field_coarse g; field_fine := Some v;
     sampler_uniform := sampler_uniform g; sampler_pdf := sampler_pdf g;
     renderer_rgb := renderer_rgb g; renderer_accumulation := renderer_accumulation g;
     renderer_depth := renderer_depth g; rgb_loss := rgb_loss g |}.

Definition set_sampler_uniform (v : UniformSampler) (g : NeRFGraph) : NeRFGraph :=
  {| near_plane := near_plane g; far_plane := far_plane g;
     num_coarse_samples := num_coarse_samples g; num_importance_samples := num_importance_samples g;
     field_coarse := field_coarse g; field_fine := field_fine g;
     sampler_uniform := Some v; sampler_pdf := sampler_pdf g;
     renderer_rgb := renderer_rgb g; renderer_accumulation := renderer_accumulation g;
     renderer_depth := renderer_depth g; rgb_loss := rgb_loss g |}.

Definition set_sampler_pdf (v : PDFSampler) (g : NeRFGraph) : NeRFGraph :=
  {| near_plane := near_plane g; far_plane := far_plane g;
     num_coarse_samples := num_coarse_samples g; num_importance_samples := num_importance_samples g;
     field_coarse := field_coarse g; field_fine := field_fine g;
     sampler_uniform := sampler_uniform g; sampler_pdf := Some v;
     renderer_rgb := renderer_rgb g; renderer_accumulation := renderer_accumulation g;
     renderer_depth := renderer_depth g; rgb_loss := rgb_loss g |}.

Definition set_renderer_rgb (v : RGBRenderer) (g : NeRFGraph) : NeRFGraph :=
  {| near_plane := near_plane g; far_plane := far_plane g;
     num_coarse_samples := num_coarse_samples g; num_importance_samples := num_importance_samples g;
     field_coarse := field_coarse g; field_fine := field_fine g;
     sampler_uniform := sampler_uniform g; sampler_pdf := sampler_pdf g;
     renderer_rgb := Some v; renderer_accumulation := renderer_accumulation g;
     renderer_depth := renderer_depth g; rgb_loss := rgb_loss g |}.

Definition set_renderer_accumulation (v : AccumulationRenderer) (g : NeRFGraph) : NeRFGraph :=
  {| near_plane := near_plane g; far_plane := far_plane g;
     num_coarse_samples := num_coarse_samples g; num_importance_samples := num_importance_samples g;
     field_coarse := field_coarse g; field_fine := field_fine g;
     sampler_uniform := sampler_uniform g; sampler_pdf := sampler_pdf g;
     renderer_rgb := renderer_rgb g; renderer_accumulation := Some v;
     renderer_depth := renderer_depth g; rgb_loss := rgb_loss g |}.

Definition set_renderer_depth (v : DepthRenderer) (g : NeRFGraph) : NeRFGraph :=
  {| near_plane := near_plane g; far_plane := far_plane g;
     num_coarse_samples := num_coarse_samples g; num_importance_samples := num_importance_samples g;
     field_coarse := field_coarse g; field_fine := field_fine g;
     sampler_uniform := sampler_uniform g; sampler_pdf := sampler_pdf g;
     renderer_rgb := renderer_rgb g; renderer_accumulation := renderer_accumulation g;
     renderer_depth := Some v; rgb_loss := rgb_loss g |}.

Definition set_rgb_loss (v : MSELoss) (g : NeRFGraph) : NeRFGraph :=
  {| near_plane := near_plane g; far_plane := far_plane g;
     num_coarse_samples := num_coarse_samples g; num_importance_samples := num_importance_samples g;
     field_coarse := field_coarse g; field_fine := field_fine g;
     sampler_uniform := sampler_uniform g; sampler_pdf := sampler_pdf g;
     renderer_rgb := renderer_rgb g; renderer_accumulation := renderer_accumulation g;
     renderer_depth := renderer_depth g; rgb_loss := Some v |}.
(** [NeRFGraph.populate_fields] *)
Definition populate_fields : M World () :=
  f ← allocate NeRFField_new;
  setattr (set_field_coarse f);;
  f ← allocate NeRFField_new;
  setattr (set_field_fine f).

(** [NeRFGraph.populate_modules] *)
Definition populate_modules : M World () :=
  (* samplers *)
  near ← gets (near_plane ∘ self_);
  far ← gets (far_plane ∘ self_);
  n ← gets (num_coarse_samples ∘ self_);
  setattr (set_sampler_uniform
    {| us_near_plane := near; us_far_plane := far; us_num_samples := n |});;
  n ← gets (num_importance_samples ∘ self_);
  setattr (set_sampler_pdf {| pdf_num_samples := n |});;
  (* field *)
  populate_fields;;
  (* renderers *)
  setattr (set_renderer_rgb {| background_color := Some WHITE |});;
  setattr (set_renderer_accumulation mkAccumulationRenderer);;
  setattr (set_renderer_depth mkDepthRenderer);;
  (* losses *)
  setattr (set_rgb_loss mkMSELoss).

(** [NeRFGraph.__init__].  Modelled from the spec: the base class [Graph]
    of [mattport.nerf.graph.base] is absent; its constructor, to which the
    source hands over after setting its own attributes, runs
    [populate_modules], which wires the samplers, the two fields and the
    renderers of the orchestrator. *)
Definition NeRFGraph_init (near_plane far_plane : R)
    (num_coarse_samples num_importance_samples : nat) : M World () :=
  setattr (λ _,
    {| near_plane := near_plane;
       far_plane := far_plane;
       num_coarse_samples := num_coarse_samples;
       num_importance_samples := num_importance_samples;
       field_coarse := None;
       field_fine := None;
       sampler_uniform := None;
       sampler_pdf := None;
       renderer_rgb := None;
       renderer_accumulation := None;
       renderer_depth := None;
       rgb_loss := None |});;
  populate_modules.

(** [NeRFGraph.get_param_groups] *)
Definition get_param_groups : M World (gmap string (list Param)) :=
  let param_groups := ∅ in
  coarse ← getattr field_coarse;
  fine ← getattr field_fine;
  let param_groups :=
    <["fields" := NeRFField_parameters coarse ++ NeRFField_parameters fine]>
      param_groups in
  mret param_groups.

Section graph_forward.
Context `{Numerics}.

(** [NeRFGraph.get_outputs] *)
Definition get_outputs (ray_bundle : RayBundle)
    : M World (gmap string RayTensor) :=
  (* coarse network: *)
  sampler ← getattr sampler_uniform;
  log CallSamplerUniform;;
  uniform_ray_samples ← sample (UniformSampler_call sampler ray_bundle);

  field ← getattr field_coarse;
  log CallFieldCoarse;;
  let coarse_field_outputs := NeRFField_forward field uniform_ray_samples in

  density ← getitem coarse_field_outputs DENSITY;
  log CallGetWeights;;
  let coarse_weights := get_weights uniform_ray_samples density in

  renderer ← getattr renderer_rgb;
  colour ← getitem coarse_field_outputs RGB;
  log CallRendererRGB;;
  let coarse_renderer_outputs :=
    RGBRenderer_call renderer colour coarse_weights in
  renderer ← getattr renderer_accumulation;
  log CallRendererAccumulation;;
  let coarse_renderer_accumulation :=
    AccumulationRenderer_call renderer coarse_weights in
  renderer ← getattr renderer_depth;
  log CallRendererDepth;;
  let coarse_renderer_depth :=
    DepthRenderer_call renderer coarse_weights (ts uniform_ray_samples) in

  (* fine network: *)
  sampler ← getattr sampler_pdf;
  log CallSamplerPDF;;
  pdf_ray_samples ←
    sample (PDFSampler_call sampler uniform_ray_samples coarse_weights);
  field ← getattr field_fine;
  log CallFieldFine;;
  let fine_field_outputs := NeRFField_forward field pdf_ray_samples in

  density ← getitem fine_field_outputs DENSITY;
  log CallGetWeights;;
  let fine_weights := get_weights pdf_ray_samples density in

  renderer ← getattr renderer_rgb;
  colour ← getitem fine_field_outputs RGB;
  log CallRendererRGB;;
  let fine_renderer_outputs :=
    RGBRenderer_call renderer colour fine_weights in
  renderer ← getattr renderer_accumulation;
  log CallRendererAccumulation;;
  let fine_renderer_accumulation :=
    AccumulationRenderer_call renderer fine_weights in
  renderer ← getattr renderer_depth;
  log CallRendererDepth;;
  let fine_renderer_depth :=
    DepthRenderer_call renderer fine_weights (ts pdf_ray_samples) in

  (* outputs: *)
  let outputs : gmap string RayTensor :=
    <["rgb_coarse" := rgb coarse_renderer_outputs]> $
    <["rgb_fine" := rgb fine_renderer_outputs]> $
    <["accumulation_coarse" := accumulation coarse_renderer_accumulation]> $
    <["accumulation_fine" := accumulation fine_renderer_accumulation]> $
    <["depth_coarse" := depth coarse_renderer_depth]> $
    <["depth_fine" := depth fine_renderer_depth]> ∅ in
  mret outputs.

(** [NeRFGraph.get_loss_dict].  Moving a tensor to a device keeps its
    values, so [.device] and [.to(device)] leave only the two look-ups
    they make. *)
Definition get_loss_dict (outputs batch : gmap string RayTensor)
    : M World (gmap string R) :=
  _ ← getitem outputs "rgb_coarse";
  pixels ← getitem batch "pixels";
  loss ← getattr rgb_loss;
  prediction ← getitem outputs "rgb_coarse";
  let rgb_loss_coarse := MSELoss_call loss pixels prediction in
  loss ← getattr rgb_loss;
  prediction ← getitem outputs "rgb_fine";
  let rgb_loss_fine := MSELoss_call loss pixels prediction in
  let loss_dict : gmap string R :=
    <["rgb_loss_coarse" := rgb_loss_coarse]> $
    <["rgb_loss_fine" := rgb_loss_fine]> ∅ in
  let loss_dict :=
    <["aggregated_loss" := get_aggregated_loss_from_loss_dict loss_dict]>
      loss_dict in
  mret loss_dict.
End graph_forward.

(** ** The test-image hook

    [NeRFGraph.log_test_image_outputs] hands images to the process-wide
    writer and the statistics tracker.  What it calls outside the class is
    a parameter: torch's operations on image tensors, the colour maps of
    [mattport.utils.visualization] and the three metric objects of
    torchmetrics, which [populate_modules] creates.  Shape errors of torch
    are not modelled. *)
Class Imaging (Image : Type) := {
  (** [torch.cat(images, dim=1)] *)
  torch_cat_dim1 : list Image → Image;
  (** [visualization.apply_colormap] *)
  apply_colormap : Image → Image;
  (** [visualization.apply_depth_colormap(depth, accumulation=,
      near_plane=, far_plane=)] *)
  apply_depth_colormap : Image → Image → R → R → Image;
  (** [torch.moveaxis(x, -1, 0)[None, ...]] *)
  to_metric_layout : Image → Image;
  (** [self.psnr], [self.ssim] and [self.lpips] applied to two images *)
  psnr : Image → Image → R;
  ssim : Image → Image → R;
  lpips : Image → Image → R;
}.

(** The member of [stats_tracker.Stats] the source names. *)
Inductive Stats := CURR_TEST_PSNR.

(** The dictionary handed to [writer.write_event]: a name, an image under
    "x" or a number under "scalar", a step and a group. *)
Inductive Payload (Image : Type) :=
  | X (x : Image)
  | Scalar (scalar : R).
Arguments X {Image} x.
Arguments Scalar {Image} scalar.

Record Event (Image : Type) := {
  event_name : string;
  event_payload : Payload Image;
  event_step : nat;
  event_group : string;
}.
Arguments event_name {Image} e.
Arguments event_payload {Image} e.
Arguments event_step {Image} e.
Arguments event_group {Image} e.

(** What the hook does to the world outside the graph, in order. *)
Inductive Effect (Image : Type) :=
  | WriteEvent (e : Event Image)
  | UpdateStats (name : Stats) (value : R) (step : nat).
Arguments WriteEvent {Image} e.
Arguments UpdateStats {Image} name value step.

(** The state the hook runs in: the world of the graph and what has been
    handed to the writer and the tracker so far. *)
Record Session (Image : Type) := {
  world : World;
  effects : list (Effect Image);
}.
Arguments world {Image} s.
Arguments effects {Image} s.

Definition emit {Image} (e : Effect Image) : M (Session Image) () :=
  modify (λ s, {| world := world s; effects := effects s ++ [e] |}).

(** [writer.write_event] *)
Definition write_event {Image} (e : Event Image) : M (Session Image) () :=
  emit (WriteEvent e).

(** [stats_tracker.update_stats] *)
Definition update_stats {Image} (name : Stats) (value : R) (step : nat)
    : M (Session Image) () :=
  emit (UpdateStats name value step).

Section test_image.
Context {Image : Type} `{Imaging Image}.

(** [NeRFGraph.log_test_image_outputs] *)
Definition log_test_image_outputs (image_idx step : nat) (image : Image)
    (outputs : gmap string Image) : M (Session Image) R :=
  rgb_coarse ← getitem outputs "rgb_coarse";
  rgb_fine ← getitem outputs "rgb_fine";

  let combined_image := torch_cat_dim1 [image; rgb_coarse; rgb_fine] in
  write_event
    {| event_name := "image_idx_" +:+ pretty image_idx +:+ "-rgb_coarse_fine";
       event_payload := X combined_image;
       event_step := step;
       event_group := "val_img" |};;

  x ← getitem outputs "accumulation_coarse";
  let accumulation_coarse := apply_colormap x in
  x ← getitem outputs "accumulation_fine";
  let accumulation_fine := apply_colormap x in
  let combined_image := torch_cat_dim1 [accumulation_coarse; accumulation_fine] in
  write_event
    {| event_name := "image_idx_" +:+ pretty image_idx;
       event_payload := X combined_image;
       event_step := step;
       event_group := "val_accumulation" |};;

  x ← getitem outputs "depth_coarse";
  accumulation ← getitem outputs "accumulation_coarse";
  near ← gets (near_plane ∘ self_ ∘ world);
  far ← gets (far_plane ∘ self_ ∘ world);
  let depth_coarse := apply_depth_colormap x accumulation near far in
  x ← getitem outputs "depth_fine";
  accumulation ← getitem outputs "accumulation_fine";
  near ← gets (near_plane ∘ self_ ∘ world);
  far ← gets (far_plane ∘ self_ ∘ world);
  let depth_fine := apply_depth_colormap x accumulation near far in
  let combined_image := torch_cat_dim1 [depth_coarse; depth_fine] in
  write_event
    {| event_name := "image_idx_" +:+ pretty image_idx;
       event_payload := X combined_image;
       event_step := step;
       event_group := "val_depth" |};;

  (* Switch images from [H, W, C] to [1, C, H, W] for metrics computations *)
  let image := to_metric_layout image in
  let rgb_coarse := to_metric_layout rgb_coarse in
  let rgb_fine := to_metric_layout rgb_fine in

  let coarse_psnr := psnr image rgb_coarse in
  write_event
    {| event_name := "val_" +:+ pretty image_idx +:+ "-coarse";
       event_payload := Scalar coarse_psnr;
       event_step := step;
       event_group := "psnr" |};;

  let fine_psnr := psnr image rgb_fine in
  update_stats CURR_TEST_PSNR fine_psnr step;;
  write_event
    {| event_name := "val_idx_" +:+ pretty image_idx +:+ "-fine";
       event_payload := Scalar fine_psnr;
       event_step := step;
       event_group := "psnr" |};;

  let fine_ssim := ssim image rgb_fine in
  write_event
    {| event_name := "val_idx_" +:+ pretty image_idx;
       event_payload := Scalar fine_ssim;
       event_step := step;
       event_group := "ssim" |};;

  let fine_lpips := lpips image rgb_fine in
  write_event
    {| event_name := "val_idx_" +:+ pretty image_idx;
       event_payload := Scalar fine_lpips;
       event_step := step;
       event_group := "lpips" |};;
  mret fine_psnr.
End test_image.

(** ** Concrete inputs

    An instance of [Numerics] with which the definitions can be run: the
    encodings and the two networks return their input, the colour head
    reads the first three channels of its input, the density head returns
    zero (empty space), the importance sampler returns the samples it is
    given, and the losses are zero. *)
Definition probe : Numerics := {|
  NeRFEncoding_call := λ _ v, v;
  MLP_call := λ _ v, v;
  RGBFieldHead_net := λ _ v, (nth 0 v 0, nth 1 v 0, nth 2 v 0)%R;
  DensityFieldHead_net := λ _ _, 0%R;
  PDFSampler_call := λ _ samples _ g, (samples, g);
  MSELoss_call := λ _ _ _, 0%R;
  get_aggregated_loss_from_loss_dict := λ _, 0%R;
|}.

(** One ray with one sample at the origin, seen along the x axis, and the
    same sample seen along the y axis. *)
Definition sample_along (d : Vec) : RaySamples :=
  [[ {| position := [0; 0; 0]%R; direction := d; t := 3;
        bin_lower := 2; bin_upper := 4 |} ]].

Definition seen_along_x : RaySamples := sample_along [1; 0; 0]%R.
Definition seen_along_y : RaySamples := sample_along [0; 1; 0]%R.

(** The field that [NeRFField(num_layers=1, layer_width=2,
    skip_connections=())] builds in an empty store. *)
Definition small_field : NeRFField :=
  let linear (i : nat) :=
    {| weight := {| param_id := i |}; bias := {| param_id := S i |} |} in
  {| num_layers := 1;
     layer_width := 2;
     skip_connections := [];
     encoding_xyz := build_encodings.1;
     encoding_dir := build_encodings.2;
     mlp_base :=
       {| mlp_in_dim := 63; mlp_out_dim := 2; mlp_num_layers := 1;
          mlp_layer_width := 2; mlp_skip_connections := [];
          mlp_activation := ReLU; mlp_layers := [linear 0] |};
     mlp_rgb :=
       {| mlp_in_dim := 29; mlp_out_dim := 1; mlp_num_layers := 2;
          mlp_layer_width := 1; mlp_skip_connections := [];
          mlp_activation := ReLU; mlp_layers := [linear 2; linear 4] |};
     field_output_rgb := {| rgb_head_in_dim := 1; rgb_head_net := linear 6 |};
     field_output_density :=
       {| density_head_in_dim := 2; density_head_net := linear 8 |} |}.

(** A world in which no graph has been built yet, whose generator draws
    the middle of every bin, and the world after
    [NeRFGraph(near_plane=2, far_plane=6, num_coarse_samples=4,
    num_importance_samples=8)]. *)
Definition fresh_world : World :=
  {| self_ :=
       {| near_plane := 0; far_plane := 0; num_coarse_samples := 0;
          num_importance_samples := 0;
          field_coarse := None; field_fine := None;
          sampler_uniform := None; sampler_pdf := None;
          renderer_rgb := None; renderer_accumulation := None;
          renderer_depth := None; rgb_loss := None |};
     heap := 0;
     rng := λ _, (1 / 2)%R;
     calls := [] |}.

Definition built_world : World := (NeRFGraph_init 2 6 4 8 fresh_world).2.

Definition built_field_coarse : NeRFField :=
  default small_field (field_coarse (self_ built_world)).
Definition built_field_fine : NeRFField :=
  default small_field (field_fine (self_ built_world)).

(** The uniform sampler of the scenario: near 2, far 6, 4 samples. *)
Definition scenario_sampler : UniformSampler :=
  {| us_near_plane := 2; us_far_plane := 6; us_num_samples := 4 |}.

(** A bundle of one ray, from the origin along the z axis. *)
Definition one_ray : RayBundle :=
  [ {| origin := [0; 0; 0]%R; ray_direction := [0; 0; 1]%R |} ].

(** The sample of [seen_along_x] placed later on its ray: the same
    position and direction, another depth and another interval. *)
Definition seen_later : RaySamples :=
  [[ {| position := [0; 0; 0]%R; direction := [1; 0; 0]%R; t := 5;
        bin_lower := 4; bin_upper := 6 |} ]].

(** An instance of [Numerics] whose encodings and networks return vectors
    of the dimension they declare. *)
Definition shaped : Numerics := {|
  NeRFEncoding_call := λ e _, replicate (NeRFEncoding_get_out_dim e) 0%R;
  MLP_call := λ m _, replicate (mlp_out_dim m) 0%R;
  RGBFieldHead_net := λ _ _, (0, 0, 0)%R;
  DensityFieldHead_net := λ _ _, 0%R;
  PDFSampler_call := λ _ samples _ g, (samples, g);
  MSELoss_call := λ _ _ _, 0%R;
  get_aggregated_loss_from_loss_dict := λ _, 0%R;
|}.

(** An instance of [Imaging] on per-ray tensors: the colour maps and the
    change of layout return their argument, concatenation appends, and the
    metrics are zero. *)
Definition plain_imaging : Imaging RayTensor := {|
  torch_cat_dim1 := λ images, concat images;
  apply_colormap := λ x, x;
  apply_depth_colormap := λ x _ _ _, x;
  to_metric_layout := λ x, x;
  psnr := λ _ _, 0%R;
  ssim := λ _ _, 0%R;
  lpips := λ _ _, 0%R;
|}.

(** The six outputs of a forward pass on one white pixel. *)
Definition white_outputs : gmap string RayTensor :=
  <["rgb_coarse" := [WHITE]]> $ <["rgb_fine" := [WHITE]]> $
  <["accumulation_coarse" := [[0%R]]]> $ <["accumulation_fine" := [[0%R]]]> $
  <["depth_coarse" := [[0%R]]]> $ <["depth_fine" := [[0%R]]]> ∅.

(** A session in which nothing has been written yet. *)
Definition fresh_session : Session RayTensor :=
  {| world := built_world; effects := [] |}.

(** ** Vocabulary of the statements *)

(** A computation is read-only when, whatever its outcome, it leaves the
    graph object, with everything it owns, and the store of parameter
    objects as they were. *)
Definition read_only {A} (m : M World A) : Prop :=
  ∀ w, self_ (m w).2 = self_ w ∧ heap (m w).2 = heap w.

(** The attributes [get_outputs] reads are set. *)
Record populated (g : NeRFGraph) (su : UniformSampler) (sp : PDFSampler)
    (fc ff : NeRFField) (rr : RGBRenderer) (ra : AccumulationRenderer)
    (rd : DepthRenderer) : Prop := {
  populated_sampler_uniform : sampler_uniform g = Some su;
  populated_sampler_pdf : sampler_pdf g = Some sp;
  populated_field_coarse : field_coarse g = Some fc;
  populated_field_fine : field_fine g = Some ff;
  populated_renderer_rgb : renderer_rgb g = Some rr;
  populated_renderer_accumulation : renderer_accumulation g = Some ra;
  populated_renderer_depth : renderer_depth g = Some rd;
}.

(** The calls of one forward pass. *)
Definition forward_pass_calls : list Call :=
  [CallSamplerUniform; CallFieldCoarse; CallGetWeights;
   CallRendererRGB; CallRendererAccumulation; CallRendererDepth;
   CallSamplerPDF; CallFieldFine; CallGetWeights;
   CallRendererRGB; CallRendererAccumulation; CallRendererDepth].

Section forward_pass_values.
Context `{Numerics}.
Context (w : World) (ray_bundle : RayBundle).
Context (su : UniformSampler) (sp : PDFSampler) (fc ff : NeRFField).
Context (rr : RGBRenderer) (ra : AccumulationRenderer) (rd : DepthRenderer).

(** The values of the two stages, each computed from those before it. *)
Definition uniform_stage : RaySamples * Rng :=
  UniformSampler_call su ray_bundle (rng w).
Definition coarse_outputs : FieldOutputs :=
  NeRFField_forward fc uniform_stage.1.
Definition coarse_weights : list (list R) :=
  get_weights uniform_stage.1 (coarse_outputs !!! DENSITY).
Definition pdf_stage : RaySamples * Rng :=
  PDFSampler_call sp uniform_stage.1 coarse_weights uniform_stage.2.
Definition fine_outputs : FieldOutputs :=
  NeRFField_forward ff pdf_stage.1.
Definition fine_weights : list (list R) :=
  get_weights pdf_stage.1 (fine_outputs !!! DENSITY).

Definition expected_outputs : gmap string RayTensor :=
  <["rgb_coarse" :=
      rgb (RGBRenderer_call rr (coarse_outputs !!! RGB) coarse_weights)]> $
  <["rgb_fine" :=
      rgb (RGBRenderer_call rr (fine_outputs !!! RGB) fine_weights)]> $
  <["accumulation_coarse" :=
      accumulation (AccumulationRenderer_call ra coarse_weights)]> $
  <["accumulation_fine" :=
      accumulation (AccumulationRenderer_call ra fine_weights)]> $
  <["depth_coarse" :=
      depth (DepthRenderer_call rd coarse_weights (ts uniform_stage.1))]> $
  <["depth_fine" :=
      depth (DepthRenderer_call rd fine_weights (ts pdf_stage.1))]> ∅.
End forward_pass_values.

Definition output_names : gset string :=
  {[ "rgb_coarse"; "rgb_fine"; "accumulation_coarse"; "accumulation_fine";
     "depth_coarse"; "depth_fine" ]}.

(** The parameter objects with the identities [h], ..., [h + n - 1]. *)
Definition params_from (h n : nat) : list Param :=
  (λ i, {| param_id := i |}) <$> seq h n.

(** What [__init__] fixes of a field apart from the identity of its
    parameters. *)
Definition MLP_architecture (m : MLP) :=
  (mlp_in_dim m, mlp_out_dim m, mlp_num_layers m, mlp_layer_width m,
   mlp_skip_connections m, mlp_activation m, length (mlp_layers m)).

Definition architecture (f : NeRFField) :=
  (num_layers f, layer_width f, skip_connections f,
   encoding_xyz f, encoding_dir f,
   MLP_architecture (mlp_base f), MLP_architecture (mlp_rgb f),
   rgb_head_in_dim (field_output_rgb f),
   density_head_in_dim (field_output_density f)).

Definition architecture_of (n width : nat) (skips : list Z) :=
  (n, width, skips, build_encodings.1, build_encodings.2,
   (NeRFEncoding_get_out_dim build_encodings.1, width, n, width, skips, ReLU, n),
   (width + NeRFEncoding_get_out_dim build_encodings.2, width / 2, 2,
    width / 2, @nil Z, ReLU, 2),
   width / 2, width).


Definition loss_names : gset string :=
  {[ "rgb_loss_coarse"; "rgb_loss_fine"; "aggregated_loss" ]}.


(** A density tensor that is zero at every sample. *)
Definition zero_density (d : SampleTensor) : Prop :=
  Forall (Forall (λ v, hd 0%R v = 0%R)) d.

(** The encodings and the networks return vectors of the dimension they
    declare when given vectors of the dimension they expect. *)
Definition well_shaped (N : Numerics) : Prop :=
  (∀ e v, length v = in_dim e →
          length (NeRFEncoding_call e v) = NeRFEncoding_get_out_dim e)
  ∧ (∀ m v, length v = mlp_in_dim m → length (MLP_call m v) = mlp_out_dim m).

(** Positions and directions are 3-vectors. *)
Definition three_channels (s : RaySamples) : Prop :=
  Forall (Forall (λ x, length (position x) = 3 ∧ length (direction x) = 3)) s.

(** Every vector of a per-sample tensor has [n] channels. *)
Definition channels (n : nat) (x : SampleTensor) : Prop :=
  Forall (Forall (λ v, length v = n)) x.

(** The group of an event, and the mark of a statistics update. *)
Definition effect_group {Image} (e : Effect Image) : string :=
  match e with
  | WriteEvent ev => event_group ev
  | UpdateStats _ _ _ => "stats"
  end.

(** The groups of what the test-image hook hands out, in order. *)
Definition hook_groups : list string :=
  ["val_img"; "val_accumulation"; "val_depth"; "psnr"; "stats"; "psnr";
   "ssim"; "lpips"].

(** The step an effect carries. *)
Definition effect_step {Image} (e : Effect Image) : nat :=
  match e with
  | WriteEvent ev => event_step ev
  | UpdateStats _ _ step => step
  end.


(** The group and the name under which an event reaches the writer. *)
Definition effect_label {Image} (e : Effect Image) : option (string * string) :=
  match e with
  | WriteEvent ev => Some (event_group ev, event_name ev)
  | UpdateStats _ _ _ => None
  end.

(** ** Properties of [NeRFField.forward] *)

Section field_properties.
Context `{Numerics}.

Lemma forward_lookup_RGB (self : NeRFField) (s : RaySamples) :
  NeRFField_forward self s !! RGB =
    Some (tmap (λ v, colour_of (RGBFieldHead_net (field_output_rgb self) v))
            (rgb_mlp_out self s)).
Proof.
  unfold NeRFField_forward, update, RGBFieldHead_call, DensityFieldHead_call.
  rewrite lookup_union_r by (by apply lookup_singleton_ne).
  rewrite lookup_union_l by apply lookup_empty.
  apply lookup_singleton_eq.
Qed.

Lemma forward_lookup_DENSITY (self : NeRFField) (s : RaySamples) :
  NeRFField_forward self s !! DENSITY =
    Some (tmap (λ v, [DensityFieldHead_net (field_output_density self) v])
            (base_mlp_out self s)).
Proof.
  unfold NeRFField_forward, update, RGBFieldHead_call, DensityFieldHead_call.
  rewrite lookup_union_l'; [apply lookup_singleton_eq|].
  rewrite lookup_singleton_eq. eauto.
Qed.

Lemma forward_lookup_other (self : NeRFField) (s : RaySamples) k :
  k ≠ RGB → k ≠ DENSITY → NeRFField_forward self s !! k = None.
Proof.
  intros Hrgb Hdensity.
  unfold NeRFField_forward, update, RGBFieldHead_call, DensityFieldHead_call.
  rewrite !lookup_union, !lookup_singleton_ne, lookup_empty by done.
  done.
Qed.
End field_properties.

Lemma tmap_tmap {A B C} (f : A → B) (g : B → C) (x : list (list A)) :
  tmap g (tmap f x) = tmap (g ∘ f) x.
Proof.
  unfold tmap. rewrite <- list_fmap_compose.
  apply list_fmap_ext. intros _ l _. simpl. by rewrite <- list_fmap_compose.
Qed.

Lemma torch_cat_tmap {A} (f g : A → Vec) (x : list (list A)) :
  torch_cat [tmap f x; tmap g x] = tmap (λ a, f a ++ g a) x.
Proof.
  unfold tmap. simpl.
  induction x as [|row x IH]; simpl; [done|].
  f_equal; [|done].
  induction row as [|a row IHrow]; simpl; [done|]. by f_equal.
Qed.

(** [C10] For every RaySamples input the dictionary that
    [NeRFField.forward] returns has exactly the two keys
    [FieldHeadNames.RGB] and [FieldHeadNames.DENSITY]: looking up either
    succeeds and no other output kind is produced. *)
Theorem forward_keys (N : Numerics) (self : NeRFField) (ray_samples : RaySamples) :
  dom (NeRFField_forward self ray_samples)
  = ({[RGB; DENSITY]} : gset FieldHeadNames).
Proof.
  apply set_eq. intros k. rewrite elem_of_dom.
  destruct (decide (k = RGB)) as [->|Hrgb].
  { rewrite forward_lookup_RGB. split; [set_solver | eauto]. }
  destruct (decide (k = DENSITY)) as [->|Hdensity].
  { rewrite forward_lookup_DENSITY. split; [set_solver | eauto]. }
  rewrite forward_lookup_other by done.
  split; [intros [? ?]; discriminate|].
  rewrite elem_of_union, !elem_of_singleton. intros [?|?]; contradiction.
Qed.

(** [C2] With the parameters of the field fixed, the DENSITY entry of the
    output of [NeRFField.forward] depends only on the positions of the
    samples: two inputs with the same positions and different directions
    give the same density.  The RGB entry may depend on the directions:
    there are parameters and two such inputs whose colours differ. *)
Theorem density_ignores_directions :
  (∀ (N : Numerics) (self : NeRFField) (s1 s2 : RaySamples),
     positions s1 = positions s2 →
     NeRFField_forward self s1 !! DENSITY = NeRFField_forward self s2 !! DENSITY)
  ∧ (∃ (N : Numerics) (self : NeRFField) (s1 s2 : RaySamples),
       positions s1 = positions s2
       ∧ NeRFField_forward self s1 !! RGB ≠ NeRFField_forward self s2 !! RGB).
Proof.
  split.
  - intros N self s1 s2 Hpos.
    rewrite !forward_lookup_DENSITY.
    unfold base_mlp_out, encoded_xyz. by rewrite Hpos.
  - exists probe, small_field, seen_along_x, seen_along_y.
    split; [reflexivity|].
    rewrite !forward_lookup_RGB. cbn.
    intros Heq. injection Heq as Heq _. lra.
Qed.

Lemma density_ignores_directions_witness :
  positions seen_along_x = positions seen_along_y
  ∧ NeRFField_forward (H:=probe) small_field seen_along_x !! DENSITY
    = NeRFField_forward (H:=probe) small_field seen_along_y !! DENSITY.
Proof.
  split; [reflexivity|].
  apply (proj1 density_ignores_directions probe small_field). reflexivity.
Defined.

Example small_field_built : NeRFField_init 1 2 [] 0 = (Ok small_field, 10).
Proof. reflexivity. Qed.

(** [C3] as stated fails: for a sample at the origin seen along the x
    axis, the argument of [mlp_rgb] is not the feature of the base MLP
    followed by the encoded direction. *)
Lemma mlp_rgb_input_not_base_first :
  mlp_rgb_input (H:=probe) small_field seen_along_x
  ≠ torch_cat [base_mlp_out (H:=probe) small_field seen_along_x;
               encoded_dir (H:=probe) small_field seen_along_x].
Proof. cbn. intros Heq. injection Heq as Heq _. lra. Qed.

Lemma mlp_rgb_input_per_sample `{Numerics} (self : NeRFField)
    (s : RaySamples) :
  mlp_rgb_input self s
  = tmap (λ x, NeRFEncoding_call (encoding_dir self) (direction x)
               ++ MLP_call (mlp_base self)
                    (NeRFEncoding_call (encoding_xyz self) (position x)))
      s.
Proof.
  unfold mlp_rgb_input, encoded_dir, base_mlp_out, encoded_xyz,
    directions, positions.
  rewrite !tmap_tmap. apply torch_cat_tmap.
Qed.

Lemma forward_RGB_per_sample `{Numerics} (self : NeRFField) (s : RaySamples) :
  NeRFField_forward self s !! RGB
  = Some (tmap (λ x, colour_of (colour_at self x)) s).
Proof.
  rewrite forward_lookup_RGB. unfold rgb_mlp_out.
  by rewrite mlp_rgb_input_per_sample, !tmap_tmap.
Qed.

Lemma forward_DENSITY_per_sample `{Numerics} (self : NeRFField)
    (s : RaySamples) :
  NeRFField_forward self s !! DENSITY
  = Some (tmap (λ x, [density_at self x]) s).
Proof.
  rewrite forward_lookup_DENSITY.
  unfold base_mlp_out, encoded_xyz, positions. by rewrite !tmap_tmap.
Qed.

(** [C3] (as amended) In [NeRFField.forward] the argument of the second,
    shallow MLP ([mlp_rgb]) is, sample by sample, the encoded direction
    followed by the feature of the base MLP, and the RGB head is applied
    to the output of that MLP. *)
Theorem rgb_from_direction_then_base (N : Numerics) (self : NeRFField)
    (ray_samples : RaySamples) :
  mlp_rgb_input self ray_samples
  = tmap (λ x, NeRFEncoding_call (encoding_dir self) (direction x)
               ++ MLP_call (mlp_base self)
                    (NeRFEncoding_call (encoding_xyz self) (position x)))
      ray_samples
  ∧ NeRFField_forward self ray_samples !! RGB
    = Some (tmap (λ v, colour_of (RGBFieldHead_net (field_output_rgb self)
                                    (MLP_call (mlp_rgb self) v)))
              (mlp_rgb_input self ray_samples)).
Proof.
  split; [apply mlp_rgb_input_per_sample|].
  rewrite forward_lookup_RGB. unfold rgb_mlp_out. by rewrite tmap_tmap.
Qed.

(** ** Running the methods of the graph *)

Lemma bind_getattr {A B} (name : NeRFGraph → option A) (k : A → M World B)
    (w : World) (a : A) :
  name (self_ w) = Some a → (getattr name ≫= k) w = k a w.
Proof. intros Hname. unfold mbind, M_bind, getattr. by rewrite Hname. Qed.

Lemma bind_getitem {S K V B} `{Countable K} (d : gmap K V) (key : K)
    (k : V → M S B) (s : S) (v : V) :
  d !! key = Some v → (getitem d key ≫= k) s = k v s.
Proof. intros Hkey. unfold mbind, M_bind, getitem. by rewrite Hkey. Qed.

Lemma bind_log {B} (c : Call) (k : () → M World B) (w : World) :
  (log c ≫= k) w
  = k () {| self_ := self_ w; heap := heap w; rng := rng w;
            calls := calls w ++ [c] |}.
Proof. reflexivity. Qed.

Lemma bind_sample {A B} (f : Rng → A * Rng) (k : A → M World B) (w : World) :
  (sample f ≫= k) w
  = k (f (rng w)).1 {| self_ := self_ w; heap := heap w; rng := (f (rng w)).2;
                       calls := calls w |}.
Proof. unfold mbind, M_bind, sample. by destruct (f (rng w)). Qed.

Lemma read_only_ret {A} (a : A) : read_only (mret a).
Proof. by intros w. Qed.

Lemma read_only_bind {A B} (m : M World A) (k : A → M World B) :
  read_only m → (∀ a, read_only (k a)) → read_only (m ≫= k).
Proof.
  intros Hm Hk w. unfold mbind, M_bind.
  destruct (Hm w) as [Hself Hheap].
  destruct (m w) as [[a|e] w1]; simpl in *; [|done].
  destruct (Hk a w1) as [Hself1 Hheap1]. split; congruence.
Qed.

Lemma read_only_getattr {A} (name : NeRFGraph → option A) :
  read_only (getattr name).
Proof. intros w. unfold getattr. by destruct (name (self_ w)). Qed.

Lemma read_only_getitem {K V} `{Countable K} (d : gmap K V) (key : K) :
  read_only (getitem d key).
Proof. intros w. unfold getitem. by destruct (d !! key). Qed.

Lemma read_only_log (c : Call) : read_only (log c).
Proof. by intros w. Qed.

Lemma read_only_sample {A} (f : Rng → A * Rng) : read_only (sample f).
Proof. intros w. unfold sample. by destruct (f (rng w)). Qed.

Create HintDb frame discriminated.
#[export] Hint Resolve read_only_ret read_only_getattr read_only_getitem
  read_only_log read_only_sample : frame.

Ltac run_log := rewrite bind_log; cbn [self_ heap rng calls].

Ltac frame :=
  repeat first
    [ apply read_only_bind; [solve [auto with frame]|intros ?]
    | solve [auto with frame] ].

(** The predicate is not vacuous: [populate_fields] is not read-only. *)
Example populate_fields_writes : ¬ read_only populate_fields.
Proof.
  intros Hframe.
  destruct (Hframe {| self_ := set_field_coarse small_field
                        {| near_plane := 2; far_plane := 6;
                           num_coarse_samples := 4;
                           num_importance_samples := 8;
                           field_coarse := None; field_fine := None;
                           sampler_uniform := None; sampler_pdf := None;
                           renderer_rgb := None;
                           renderer_accumulation := None;
                           renderer_depth := None; rgb_loss := None |};
                      heap := 0; rng := λ _, 0%R; calls := [] |})
    as [_ Hheap].
  discriminate Hheap.
Qed.

(** [C9] For every ray bundle [get_outputs] is read-only with respect to
    the state of the graph: whether it returns or raises, the graph object
    afterwards is the one before, with the same fields (and their
    parameters), samplers and renderers, so no attribute was assigned, and
    no parameter object was created. *)
Theorem get_outputs_read_only (N : Numerics) (ray_bundle : RayBundle)
    (w : World) :
  self_ (get_outputs ray_bundle w).2 = self_ w
  ∧ heap (get_outputs ray_bundle w).2 = heap w.
Proof.
  revert w. change (read_only (get_outputs ray_bundle)).
  unfold get_outputs. frame.
Qed.

Section forward_pass.
Context `{Numerics}.
Context (w : World) (ray_bundle : RayBundle).
Context (su : UniformSampler) (sp : PDFSampler) (fc ff : NeRFField).
Context (rr : RGBRenderer) (ra : AccumulationRenderer) (rd : DepthRenderer).

Lemma forward_total_RGB (self : NeRFField) (s : RaySamples) :
  NeRFField_forward self s !! RGB = Some (NeRFField_forward self s !!! RGB).
Proof.
  rewrite (lookup_total_correct _ _ _ (forward_lookup_RGB self s)).
  apply forward_lookup_RGB.
Qed.

Lemma forward_total_DENSITY (self : NeRFField) (s : RaySamples) :
  NeRFField_forward self s !! DENSITY
  = Some (NeRFField_forward self s !!! DENSITY).
Proof.
  rewrite (lookup_total_correct _ _ _ (forward_lookup_DENSITY self s)).
  apply forward_lookup_DENSITY.
Qed.

Lemma get_outputs_populated :
  populated (self_ w) su sp fc ff rr ra rd →
  get_outputs ray_bundle w
  = (Ok (expected_outputs w ray_bundle su sp fc ff rr ra rd),
     {| self_ := self_ w; heap := heap w;
        rng := (pdf_stage w ray_bundle su sp fc).2;
        calls := calls w ++ forward_pass_calls |}).
Proof.
  intros [Hsu Hsp Hfc Hff Hrr Hra Hrd].
  unfold get_outputs.
  do 2 (erewrite bind_getattr by eassumption; run_log;
        rewrite bind_sample; cbn [self_ heap rng calls];
        erewrite bind_getattr by eassumption; run_log;
        rewrite (bind_getitem _ _ _ _ _ (forward_total_DENSITY _ _)); run_log;
        erewrite bind_getattr by eassumption;
        rewrite (bind_getitem _ _ _ _ _ (forward_total_RGB _ _)); run_log;
        erewrite bind_getattr by eassumption; run_log;
        erewrite bind_getattr by eassumption; run_log).
  unfold forward_pass_calls. rewrite <- !(assoc_L (++)). reflexivity.
Qed.
End forward_pass.

(** [C1] For every ray bundle, [get_outputs] on a populated graph runs two
    stages in order.  Coarse: uniform sampling, evaluation of the coarse
    field, weights, then the three renderers.  Fine: PDF sampling from the
    uniform samples and the coarse weights, evaluation of the fine field,
    weights, then the three renderers.  It returns a dictionary with
    exactly the six keys rgb_coarse, rgb_fine, accumulation_coarse,
    accumulation_fine, depth_coarse and depth_fine, each bound to what the
    renderer of its stage returned. *)
Theorem get_outputs_two_stages (N : Numerics) (w : World)
    (ray_bundle : RayBundle) (su : UniformSampler) (sp : PDFSampler)
    (fc ff : NeRFField) (rr : RGBRenderer) (ra : AccumulationRenderer)
    (rd : DepthRenderer) :
  populated (self_ w) su sp fc ff rr ra rd →
  let uniform_ray_samples := (UniformSampler_call su ray_bundle (rng w)).1 in
  let coarse_field_outputs := NeRFField_forward fc uniform_ray_samples in
  let coarse_weights :=
    get_weights uniform_ray_samples (coarse_field_outputs !!! DENSITY) in
  let pdf :=
    PDFSampler_call sp uniform_ray_samples coarse_weights
      (UniformSampler_call su ray_bundle (rng w)).2 in
  let fine_field_outputs := NeRFField_forward ff pdf.1 in
  let fine_weights := get_weights pdf.1 (fine_field_outputs !!! DENSITY) in
  ∃ outputs : gmap string RayTensor,
    get_outputs ray_bundle w
    = (Ok outputs,
       {| self_ := self_ w; heap := heap w; rng := pdf.2;
          calls := calls w ++ forward_pass_calls |})
    ∧ dom outputs = output_names
    ∧ outputs !! "rgb_coarse"
      = Some (rgb (RGBRenderer_call rr (coarse_field_outputs !!! RGB)
                     coarse_weights))
    ∧ outputs !! "accumulation_coarse"
      = Some (accumulation (AccumulationRenderer_call ra coarse_weights))
    ∧ outputs !! "depth_coarse"
      = Some (depth (DepthRenderer_call rd coarse_weights
                       (ts uniform_ray_samples)))
    ∧ outputs !! "rgb_fine"
      = Some (rgb (RGBRenderer_call rr (fine_field_outputs !!! RGB)
                     fine_weights))
    ∧ outputs !! "accumulation_fine"
      = Some (accumulation (AccumulationRenderer_call ra fine_weights))
    ∧ outputs !! "depth_fine"
      = Some (depth (DepthRenderer_call rd fine_weights (ts pdf.1))).
Proof.
  intros Hpop. cbv zeta.
  exists (expected_outputs w ray_bundle su sp fc ff rr ra rd).
  split; [exact (get_outputs_populated w ray_bundle su sp fc ff rr ra rd Hpop)|].
  unfold expected_outputs.
  split; [by rewrite !dom_insert_L, dom_empty_L, (right_id_L ∅ (∪))|].
  repeat split; by simplify_map_eq.
Qed.

Lemma built_world_populated :
  populated (self_ built_world)
    {| us_near_plane := 2; us_far_plane := 6; us_num_samples := 4 |}
    {| pdf_num_samples := 8 |}
    built_field_coarse built_field_fine
    {| background_color := Some WHITE |}
    mkAccumulationRenderer mkDepthRenderer.
Proof. by split. Qed.

Lemma get_outputs_two_stages_witness :
  ∃ outputs : gmap string RayTensor,
    (get_outputs (H:=probe) one_ray built_world).1 = Ok outputs
    ∧ dom outputs = output_names.
Proof.
  destruct (get_outputs_two_stages probe built_world one_ray _ _ _ _ _ _ _
              built_world_populated) as (outputs & Hrun & Hdom & _).
  exists outputs. split; [by rewrite Hrun | exact Hdom].
Defined.

(** ** Construction *)

Lemma params_from_app (h n m : nat) :
  params_from h n ++ params_from (h + n) m = params_from h (n + m).
Proof. unfold params_from. by rewrite seq_app, fmap_app. Qed.

Lemma elem_of_params_from (p : Param) (h n : nat) :
  p ∈ params_from h n ↔ h ≤ param_id p < h + n.
Proof.
  unfold params_from. rewrite list_elem_of_fmap. split.
  - intros (i & -> & Hi%elem_of_seq). simpl. lia.
  - intros Hp. exists (param_id p). split; [by destruct p|].
    apply elem_of_seq. lia.
Qed.

Lemma new_linear_run (h : Heap) :
  new_linear h
  = (Ok {| weight := {| param_id := h |}; bias := {| param_id := S h |} |},
     S (S h)).
Proof. reflexivity. Qed.

Lemma new_layers_run (n : nat) (h : Heap) :
  ∃ layers : list Linear,
    new_layers n h = (Ok layers, h + 2 * n)
    ∧ length layers = n
    ∧ (l ← layers; [weight l; bias l]) = params_from h (2 * n).
Proof.
  revert h. induction n as [|n IH]; intros h.
  - exists []. by rewrite Nat.add_0_r.
  - destruct (IH (S (S h))) as (layers & Hrun & Hlen & Hparams).
    exists ({| weight := {| param_id := h |}; bias := {| param_id := S h |} |}
            :: layers).
    simpl new_layers.
    unfold mbind at 1, M_bind at 1. rewrite new_linear_run.
    unfold mbind at 1, M_bind at 1. rewrite Hrun.
    split; [unfold mret, M_ret; f_equal; lia|].
    split; [simpl; by rewrite Hlen|].
    replace (2 * S n) with (S (S (2 * n))) by lia.
    change ((_ :: layers) ≫= _)
      with ([ {| param_id := h |}; {| param_id := S h |} ]
            ++ (l ← layers; [weight l; bias l])).
    by rewrite Hparams.
Qed.

Lemma MLP_init_run (i o n width : nat) (skips : list Z) (a : Activation)
    (h : Heap) :
  forallb (skip_index_ok n) skips = true →
  ∃ m : MLP,
    MLP_init i o n width skips a h = (Ok m, h + 2 * n)
    ∧ MLP_parameters m = params_from h (2 * n)
    ∧ mlp_in_dim m = i ∧ mlp_out_dim m = o ∧ mlp_num_layers m = n
    ∧ mlp_layer_width m = width ∧ mlp_skip_connections m = skips
    ∧ mlp_activation m = a ∧ length (mlp_layers m) = n.
Proof.
  intros Hok. unfold MLP_init. rewrite Hok.
  destruct (new_layers_run n h) as (layers & Hrun & Hlen & Hparams).
  eexists. unfold mbind, M_bind. rewrite Hrun.
  split; [reflexivity|]. by repeat split.
Qed.

Lemma MLP_init_raises (i o n width : nat) (skips : list Z) (a : Activation)
    (h : Heap) :
  forallb (skip_index_ok n) skips = false →
  MLP_init i o n width skips a h = (Raise ConfigurationError, h).
Proof. intros Hbad. unfold MLP_init. by rewrite Hbad. Qed.

Lemma NeRFField_init_run (n width : nat) (skips : list Z) (h : Heap) :
  forallb (skip_index_ok n) skips = true →
  ∃ f : NeRFField,
    NeRFField_init n width skips h = (Ok f, h + (2 * n + 8))
    ∧ NeRFField_parameters f = params_from h (2 * n + 8)
    ∧ architecture f = architecture_of n width skips.
Proof.
  intros Hok. unfold NeRFField_init, build_mlp_base, build_mlp_rgb.
  change build_encodings with (build_encodings.1, build_encodings.2) at 1.
  cbv beta iota zeta.
  destruct (MLP_init_run (NeRFEncoding_get_out_dim build_encodings.1)
              width n width skips ReLU h Hok)
    as (base & Hbase & Hpbase & Hb1 & Hb2 & Hb3 & Hb4 & Hb5 & Hb6 & Hb7).
  unfold mbind at 1, M_bind at 1. rewrite Hbase.
  destruct (MLP_init_run
              (MLP_get_out_dim base + NeRFEncoding_get_out_dim build_encodings.2)
              (width / 2) 2 (width / 2) [] ReLU (h + 2 * n) eq_refl)
    as (colour & Hcolour & Hpcolour & Hc1 & Hc2 & Hc3 & Hc4 & Hc5 & Hc6 & Hc7).
  unfold mbind at 1, M_bind at 1. rewrite Hcolour.
  eexists. split; [|split].
  - unfold mbind, M_bind, build_heads, mbind, M_bind,
      RGBFieldHead_init, DensityFieldHead_init, mbind, M_bind.
    rewrite !new_linear_run. unfold mret, M_ret.
    apply (f_equal2 pair); [reflexivity | lia].
  - unfold NeRFField_parameters, RGBFieldHead_parameters,
      DensityFieldHead_parameters.
    cbn [mlp_base mlp_rgb field_output_rgb field_output_density fst snd
      rgb_head_net density_head_net weight bias].
    rewrite Hpbase, Hpcolour.
    change ([_; _] ++ [_; _])
      with (params_from (h + 2 * n + 2 * 2) 4).
    rewrite !params_from_app. f_equal.
  - unfold architecture, architecture_of, MLP_architecture, MLP_get_out_dim.
    cbn [num_layers layer_width skip_connections encoding_xyz encoding_dir
      mlp_base mlp_rgb field_output_rgb field_output_density fst snd
      rgb_head_in_dim density_head_in_dim].
    unfold MLP_get_out_dim.
    rewrite Hb1, Hb2, Hb3, Hb4, Hb5, Hb6, Hb7, Hc1, Hc2, Hc3, Hc4, Hc5, Hc6, Hc7.
    unfold MLP_get_out_dim. by rewrite Hb2.
Qed.

Lemma skip_index_ok_spec (n : nat) (i : Z) :
  skip_index_ok n i = true ↔ (0 ≤ i < Z.of_nat n)%Z.
Proof.
  unfold skip_index_ok.
  rewrite andb_true_iff, !bool_decide_eq_true. tauto.
Qed.

Lemma skips_rejected (n : nat) (skips : list Z) (i : Z) :
  i ∈ skips → ¬ (0 ≤ i < Z.of_nat n)%Z →
  forallb (skip_index_ok n) skips = false.
Proof.
  intros Hin Hout. apply not_true_is_false. intros Hall.
  rewrite forallb_forall in Hall.
  apply Hout, skip_index_ok_spec, Hall. by apply list_elem_of_In.
Qed.

Lemma NeRFField_new_run (h : Heap) :
  ∃ f : NeRFField,
    NeRFField_new h = (Ok f, h + 24)
    ∧ NeRFField_parameters f = params_from h 24
    ∧ architecture f = architecture_of 8 256 [4%Z].
Proof. exact (NeRFField_init_run 8 256 [4%Z] h eq_refl). Qed.

(** [C6] Constructing a [NeRFField], and with it its base MLP, with a
    skip-connection index outside [0, num_layers) raises a configuration
    error at construction: no field is returned on which [forward] could be
    called.  Construction with the defaults, [skip_connections=(4,)] and
    [num_layers=8], succeeds, and every field that construction returns has
    all its skip indices in range. *)
Theorem skip_index_checked_at_construction :
  (∀ (n width : nat) (skips : list Z) (i : Z) (h : Heap),
     i ∈ skips → ¬ (0 ≤ i < Z.of_nat n)%Z →
     NeRFField_init n width skips h = (Raise ConfigurationError, h))
  ∧ (∀ h : Heap, ∃ f : NeRFField, NeRFField_new h = (Ok f, h + 24))
  ∧ (∀ (n width : nat) (skips : list Z) (h h' : Heap) (f : NeRFField),
       NeRFField_init n width skips h = (Ok f, h') →
       Forall (λ i, 0 ≤ i < Z.of_nat (num_layers f))%Z (skip_connections f)).
Proof.
  split; [|split].
  - intros n width skips i h Hin Hout.
    unfold NeRFField_init, build_mlp_base.
    change build_encodings with (build_encodings.1, build_encodings.2) at 1.
    cbv beta iota zeta. unfold mbind at 1, M_bind at 1.
    by rewrite MLP_init_raises by eauto using skips_rejected.
  - intros h.
    destruct (NeRFField_new_run h) as (f & Hrun & _). by exists f.
  - intros n width skips h h' f Hrun.
    destruct (forallb (skip_index_ok n) skips) eqn:Hok.
    + destruct (NeRFField_init_run n width skips h Hok) as (f' & Hrun' & _ & Harch).
      rewrite Hrun in Hrun'. injection Hrun' as <- _.
      assert (Hn : num_layers f = n)
        by exact (f_equal (λ a, a.1.1.1.1.1.1.1.1) Harch).
      assert (Hs : skip_connections f = skips)
        by exact (f_equal (λ a, a.1.1.1.1.1.1.2) Harch).
      rewrite Hn, Hs.
      apply Forall_forall. intros i Hin.
      rewrite forallb_forall in Hok.
      by apply skip_index_ok_spec, Hok, list_elem_of_In.
    + unfold NeRFField_init, build_mlp_base in Hrun.
      change build_encodings with (build_encodings.1, build_encodings.2) in Hrun at 1.
      cbv beta iota zeta in Hrun. unfold mbind at 1, M_bind at 1 in Hrun.
      rewrite MLP_init_raises in Hrun by done. discriminate Hrun.
Qed.

Lemma skip_index_checked_at_construction_witness :
  10%Z ∈ [10%Z] ∧ ¬ (0 ≤ 10 < Z.of_nat 8)%Z
  ∧ NeRFField_init 8 256 [10%Z] 0 = (Raise ConfigurationError, 0).
Proof.
  assert (Hin : 10%Z ∈ [10%Z]) by (apply list_elem_of_here).
  assert (Hout : ¬ (0 ≤ 10 < Z.of_nat 8)%Z) by (simpl; lia).
  split; [exact Hin|]. split; [exact Hout|].
  exact (proj1 skip_index_checked_at_construction 8 256 [10%Z] 10%Z 0 Hin Hout).
Defined.





(** ** The loss dictionary *)

(** [C7] For every outputs dictionary that holds rgb_coarse and rgb_fine
    and every batch that holds pixels, [get_loss_dict] returns a
    dictionary with a coarse term, the MSE loss between the pixels of the
    batch and rgb_coarse, a fine term, the MSE loss between the same
    pixels and rgb_fine, and an aggregated loss computed from the
    dictionary of those two terms; it has no other entry. *)
Theorem get_loss_dict_terms (N : Numerics) (w : World)
    (outputs batch : gmap string RayTensor)
    (rgb_coarse rgb_fine pixels : RayTensor) (loss : MSELoss) :
  outputs !! "rgb_coarse" = Some rgb_coarse →
  outputs !! "rgb_fine" = Some rgb_fine →
  batch !! "pixels" = Some pixels →
  rgb_loss (self_ w) = Some loss →
  let coarse := MSELoss_call loss pixels rgb_coarse in
  let fine := MSELoss_call loss pixels rgb_fine in
  ∃ loss_dict : gmap string R,
    get_loss_dict outputs batch w = (Ok loss_dict, w)
    ∧ loss_dict !! "rgb_loss_coarse" = Some coarse
    ∧ loss_dict !! "rgb_loss_fine" = Some fine
    ∧ loss_dict !! "aggregated_loss"
      = Some (get_aggregated_loss_from_loss_dict
                {[ "rgb_loss_coarse" := coarse; "rgb_loss_fine" := fine ]})
    ∧ dom loss_dict = loss_names.
Proof.
  intros Hcoarse Hfine Hpixels Hloss coarse fine.
  eexists. split.
  - unfold get_loss_dict.
    rewrite (bind_getitem _ _ _ _ _ Hcoarse), (bind_getitem _ _ _ _ _ Hpixels).
    erewrite bind_getattr by eassumption.
    rewrite (bind_getitem _ _ _ _ _ Hcoarse).
    erewrite bind_getattr by eassumption.
    rewrite (bind_getitem _ _ _ _ _ Hfine).
    reflexivity.
  - fold coarse fine. rewrite insert_empty.
    split; [by simplify_map_eq|]. split; [by simplify_map_eq|].
    split; [by simplify_map_eq|].
    unfold loss_names.
    rewrite !dom_insert_L, dom_singleton_L.
    apply set_eq. intros k. rewrite !elem_of_union, !elem_of_singleton. tauto.
Qed.

Lemma get_loss_dict_terms_witness :
  ∃ loss_dict : gmap string R,
    get_loss_dict (H:=probe)
      {[ "rgb_coarse" := [[1; 1; 1]%R]; "rgb_fine" := [[1; 1; 1]%R] ]}
      {[ "pixels" := [[0; 0; 0]%R] ]} built_world
    = (Ok loss_dict, built_world)
    ∧ dom loss_dict = loss_names.
Proof.
  destruct (get_loss_dict_terms probe built_world
              {[ "rgb_coarse" := [[1; 1; 1]%R]; "rgb_fine" := [[1; 1; 1]%R] ]}
              {[ "pixels" := [[0; 0; 0]%R] ]}
              [[1; 1; 1]%R] [[1; 1; 1]%R] [[0; 0; 0]%R] mkMSELoss)
    as (loss_dict & Hrun & _ & _ & _ & Hdom).
  - apply lookup_insert_eq.
  - rewrite lookup_insert_ne by done. apply lookup_singleton_eq.
  - apply lookup_singleton_eq.
  - reflexivity.
  - by exists loss_dict.
Defined.

(** ** Weights *)

Section weights.
Local Open Scope R_scope.





Lemma composite_halves : composite 1 [1 / 2; 1 / 2] = [1 / 2; 1 / 4].
Proof. simpl. repeat f_equal; lra. Qed.
End weights.



(** ** Empty space *)

Section empty_space.
Local Open Scope R_scope.

Lemma alpha_zero (delta : R) : alpha delta 0 = 0.
Proof. unfold alpha. rewrite Rmult_0_l, Ropp_0, exp_0. lra. Qed.

Lemma composite_zero {A} (delta density : A → R) (row : list A)
    (transmittance : R) :
  Forall (λ x, density x = 0) row →
  composite transmittance
    (zip_with alpha (delta <$> row) (density <$> row))
  = (λ _, 0) <$> row.
Proof.
  intros Hrow. revert transmittance.
  induction Hrow as [|x row Hx _ IH]; intros T; simpl; [done|].
  rewrite Hx, alpha_zero, IH. f_equal. lra.
Qed.

Lemma get_weights_zero (s : RaySamples) (h : RaySample → Vec) :
  zero_density (tmap h s) → get_weights s (tmap h s) = tmap (λ _, 0) s.
Proof.
  unfold zero_density, get_weights, deltas, channel0, ray_weights, tmap.
  induction s as [|row s IH]; simpl; [done|].
  intros [Hrow Hs]%Forall_cons. f_equal; [|by apply IH].
  rewrite <- list_fmap_compose. apply composite_zero.
  by apply Forall_fmap in Hrow.
Qed.

Lemma weighted_colour_zero {A} (k : A → R * R * R) (row : list A) :
  weighted_colour ((λ _, 0) <$> row) ((λ x, colour_of (k x)) <$> row)
  = [0; 0; 0].
Proof.
  induction row as [|x row IH]; [done|].
  rewrite !fmap_cons.
  change (weighted_colour (0 :: ?ws) (?c :: ?cs))
    with (vadd (vscale 0 c) (weighted_colour ws cs)).
  rewrite IH. destruct (k x) as [[r g] b]. simpl. repeat f_equal; lra.
Qed.

Lemma Rsum_cons (x : R) (l : list R) : Rsum (x :: l) = x + Rsum l.
Proof. reflexivity. Qed.

Lemma Rsum_zero {A} (row : list A) : Rsum ((λ _, 0) <$> row) = 0.
Proof.
  induction row as [|x row IH]; [done|].
  rewrite fmap_cons, Rsum_cons, IH. lra.
Qed.

Lemma render_zero_weights {A} (k : A → R * R * R) (s : list (list A)) :
  rgb (RGBRenderer_call {| background_color := Some WHITE |}
         (tmap (λ x, colour_of (k x)) s) (tmap (λ _, 0) s))
  = (λ _, [1; 1; 1]) <$> s.
Proof.
  unfold RGBRenderer_call, render_ray, tmap. cbn [rgb background_color].
  induction s as [|row s IH]; [done|].
  rewrite !fmap_cons. cbn [zip_with].
  rewrite IH, weighted_colour_zero, Rsum_zero.
  f_equal. unfold WHITE. simpl. repeat f_equal; lra.
Qed.

Lemma accumulation_zero_weights {A} (ra : AccumulationRenderer)
    (s : list (list A)) :
  accumulation (AccumulationRenderer_call ra (tmap (λ _, 0) s))
  = (λ _, [0]) <$> s.
Proof.
  unfold AccumulationRenderer_call, tmap. cbn [accumulation].
  induction s as [|row s IH]; [done|].
  by rewrite !fmap_cons, IH, Rsum_zero.
Qed.

Lemma depth_zero_weights {A} (rd : DepthRenderer) (f : A → R)
    (s : list (list A)) :
  depth (DepthRenderer_call rd (tmap (λ _, 0) s) (tmap f s))
  = (λ _, [0]) <$> s.
Proof.
  unfold DepthRenderer_call, tmap. cbn [depth].
  induction s as [|row s IH]; [done|].
  rewrite !fmap_cons. cbn [zip_with]. rewrite IH. do 2 f_equal.
  clear IH. induction row as [|x row IH]; [done|].
  rewrite !fmap_cons. cbn [zip_with]. rewrite Rsum_cons, IH. lra.
Qed.
End empty_space.

Lemma uniform_one_ray (su : UniformSampler) (r : Ray) (g : Rng) :
  (UniformSampler_call su [r] g).1
  = [imap (sample_in_bin su r) (draw (us_num_samples su) g).1].
Proof. reflexivity. Qed.

Lemma uniform_sample_count (su : UniformSampler) (r : Ray) (g : Rng) :
  length <$> (UniformSampler_call su [r] g).1 = [us_num_samples su].
Proof.
  rewrite uniform_one_ray. unfold draw. cbn [fst fmap list_fmap].
  by rewrite length_imap, length_fmap, length_seq.
Qed.

(** The generator of [fresh_world] puts the four samples of the scenario
    in the middle of the bins [2,3], [3,4], [4,5] and [5,6]. *)
Example scenario_depths :
  ts (UniformSampler_call scenario_sampler one_ray (rng fresh_world)).1
  = [[5 / 2; 7 / 2; 9 / 2; 11 / 2]%R].
Proof.
  cbn. unfold bin_edge. cbn. repeat f_equal; lra.
Qed.

(** [C4] For a bundle of one ray, near 2, far 6, 4 uniform samples, a
    white background and a coarse field that returns zero density at
    every sample, [get_outputs] yields rgb_coarse equal to the
    background colour (1,1,1), accumulation_coarse 0 and depth_coarse 0. *)
Theorem empty_space_renders_background (N : Numerics) (w : World) (r : Ray)
    (sp : PDFSampler) (fc ff : NeRFField) (ra : AccumulationRenderer)
    (rd : DepthRenderer) :
  populated (self_ w) scenario_sampler sp fc ff
    {| background_color := Some WHITE |} ra rd →
  zero_density
    (NeRFField_forward fc (UniformSampler_call scenario_sampler [r] (rng w)).1
     !!! DENSITY) →
  length <$> (UniformSampler_call scenario_sampler [r] (rng w)).1 = [4]
  ∧ ∃ (outputs : gmap string RayTensor) (w' : World),
      get_outputs [r] w = (Ok outputs, w')
      ∧ outputs !! "rgb_coarse" = Some [[1; 1; 1]%R]
      ∧ outputs !! "accumulation_coarse" = Some [[0%R]]
      ∧ outputs !! "depth_coarse" = Some [[0%R]].
Proof.
  intros Hpop Hzero.
  split; [apply uniform_sample_count|].
  eexists _, _.
  split; [exact (get_outputs_populated w [r] _ _ _ _ _ _ _ Hpop)|].
  unfold expected_outputs, coarse_weights, coarse_outputs, uniform_stage.
  set (s := (UniformSampler_call scenario_sampler [r] (rng w)).1) in *.
  rewrite (lookup_total_correct _ _ _ (forward_DENSITY_per_sample fc s)) in *.
  rewrite (lookup_total_correct _ _ _ (forward_RGB_per_sample fc s)).
  rewrite (get_weights_zero s _ Hzero).
  rewrite render_zero_weights, accumulation_zero_weights.
  unfold ts. rewrite depth_zero_weights.
  assert (Hs : ∃ row, s = [row]) by (eexists; apply uniform_one_ray).
  destruct Hs as [row ->].
  repeat split; by simplify_map_eq.
Qed.

Lemma probe_zero_density (self : NeRFField) (s : RaySamples) :
  zero_density (NeRFField_forward (H:=probe) self s !!! DENSITY).
Proof.
  rewrite (lookup_total_correct _ _ _
             (forward_DENSITY_per_sample (H:=probe) self s)).
  unfold zero_density, tmap.
  apply Forall_fmap, Forall_true. intros row.
  apply Forall_fmap, Forall_true. intros x. reflexivity.
Qed.

Lemma empty_space_renders_background_witness :
  ∃ (outputs : gmap string RayTensor) (w' : World),
    get_outputs (H:=probe) one_ray built_world = (Ok outputs, w')
    ∧ outputs !! "rgb_coarse" = Some [[1; 1; 1]%R]
    ∧ outputs !! "accumulation_coarse" = Some [[0%R]]
    ∧ outputs !! "depth_coarse" = Some [[0%R]].
Proof.
  exact (proj2 (empty_space_renders_background probe built_world
                  {| origin := [0; 0; 0]%R; ray_direction := [0; 0; 1]%R |}
                  {| pdf_num_samples := 8 |}
                  built_field_coarse built_field_fine
                  mkAccumulationRenderer mkDepthRenderer
                  built_world_populated
                  (probe_zero_density _ _))).
Defined.

(** ** The uniform samples keep the invariant

    The samples of the coarse stage meet the hypothesis under which the
    weights are bounded, whenever the near plane is not beyond the far
    plane. *)

Lemma bin_edges_ordered (su : UniformSampler) (i : nat) :
  (us_near_plane su <= us_far_plane su)%R →
  0 < us_num_samples su →
  (bin_edge su i <= bin_edge su (S i))%R.
Proof.
  intros Hplanes Hcount. unfold bin_edge. rewrite S_INR.
  assert (Hn : (0 < INR (us_num_samples su))%R) by (by apply lt_0_INR).
  assert (Hwidth : (0 <= (us_far_plane su - us_near_plane su)
                         / INR (us_num_samples su))%R).
  { apply Rmult_le_pos; [lra|]. left. by apply Rinv_0_lt_compat. }
  lra.
Qed.

Lemma uniform_intervals_ordered (su : UniformSampler) (ray_bundle : RayBundle)
    (g : Rng) :
  (us_near_plane su <= us_far_plane su)%R →
  intervals_ordered (UniformSampler_call su ray_bundle g).1.
Proof.
  intros Hplanes. unfold intervals_ordered. revert g.
  induction ray_bundle as [|r rest IH]; intros g; simpl; [constructor|].
  specialize (IH (λ i, g (us_num_samples su + i))).
  destruct (UniformSampler_call su rest _) as [samples g2]. simpl in *.
  constructor; [|exact IH].
  apply Forall_lookup. intros i x Hx.
  rewrite list_lookup_imap in Hx.
  destruct (_ !! i) as [u|] eqn:Hu; [|discriminate Hx].
  injection Hx as <-. simpl.
  apply bin_edges_ordered; [done|].
  apply lookup_lt_Some in Hu. rewrite length_fmap, length_seq in Hu. lia.
Qed.

(** ** Outcomes of the methods of the graph *)

Lemma bind_getattr_none {A B} (name : NeRFGraph → option A)
    (k : A → M World B) (w : World) :
  name (self_ w) = None → (getattr name ≫= k) w = (Raise AttributeError, w).
Proof. intros Hname. unfold mbind, M_bind, getattr. by rewrite Hname. Qed.

Lemma bind_getitem_none {S K V B} `{Countable K} (d : gmap K V) (key : K)
    (k : V → M S B) (s : S) :
  d !! key = None → (getitem d key ≫= k) s = (Raise KeyError, s).
Proof. intros Hkey. unfold mbind, M_bind, getitem. by rewrite Hkey. Qed.



(** [X1] [get_loss_dict] returns exactly when the outputs hold rgb_coarse
    and rgb_fine, the batch holds pixels and the loss object is set.  A
    missing rgb_coarse or pixels raises KeyError before the loss object is
    looked at, an unset loss object raises AttributeError before rgb_fine
    is looked up, and in every case the world is left as it was. *)
Theorem get_loss_dict_outcome (N : Numerics) (w : World)
    (outputs batch : gmap string RayTensor) :
  get_loss_dict outputs batch w
  = match outputs !! "rgb_coarse", batch !! "pixels", rgb_loss (self_ w),
          outputs !! "rgb_fine" with
    | Some coarse, Some pixels, Some loss, Some fine =>
        let terms : gmap string R :=
          {[ "rgb_loss_coarse" := MSELoss_call loss pixels coarse;
             "rgb_loss_fine" := MSELoss_call loss pixels fine ]} in
        (Ok (<["aggregated_loss" :=
                 get_aggregated_loss_from_loss_dict terms]> terms), w)
    | Some _, Some _, None, _ => (Raise AttributeError, w)
    | _, _, _, _ => (Raise KeyError, w)
    end.
Proof.
  unfold get_loss_dict.
  destruct (outputs !! "rgb_coarse") as [coarse|] eqn:Hcoarse;
    [|by rewrite (bind_getitem_none _ _ _ _ Hcoarse)].
  rewrite (bind_getitem _ _ _ _ _ Hcoarse).
  destruct (batch !! "pixels") as [pixels|] eqn:Hpixels;
    [|by rewrite (bind_getitem_none _ _ _ _ Hpixels)].
  rewrite (bind_getitem _ _ _ _ _ Hpixels).
  destruct (rgb_loss (self_ w)) as [loss|] eqn:Hloss;
    [|by rewrite bind_getattr_none].
  erewrite bind_getattr by eassumption.
  rewrite (bind_getitem _ _ _ _ _ Hcoarse).
  erewrite bind_getattr by eassumption.
  destruct (outputs !! "rgb_fine") as [fine|] eqn:Hfine;
    [|by rewrite (bind_getitem_none _ _ _ _ Hfine)].
  rewrite (bind_getitem _ _ _ _ _ Hfine).
  cbv zeta. by rewrite insert_empty.
Qed.

(** [X2] [get_param_groups] returns exactly when both fields are set, and
    raises AttributeError on a graph whose [field_coarse] or [field_fine]
    is still the [None] of [__init__]; in both cases the world is left as
    it was. *)
Theorem get_param_groups_outcome (w : World) :
  get_param_groups w
  = match field_coarse (self_ w), field_fine (self_ w) with
    | Some coarse, Some fine =>
        (Ok {[ "fields" :=
                 NeRFField_parameters coarse ++ NeRFField_parameters fine ]}, w)
    | _, _ => (Raise AttributeError, w)
    end.
Proof.
  unfold get_param_groups.
  destruct (field_coarse (self_ w)) as [coarse|] eqn:Hcoarse;
    [|by rewrite bind_getattr_none].
  erewrite bind_getattr by eassumption.
  destruct (field_fine (self_ w)) as [fine|] eqn:Hfine;
    [|by rewrite bind_getattr_none].
  erewrite bind_getattr by eassumption.
  by rewrite insert_empty.
Qed.

(** One step of a run of [get_outputs] recorded in a hypothesis. *)
Ltac run_in H :=
  repeat first
    [ erewrite bind_getattr in H by eassumption
    | rewrite bind_getattr_none in H by eassumption
    | rewrite bind_log in H; cbn [self_ heap rng calls] in H
    | rewrite bind_sample in H; cbn [self_ heap rng calls] in H
    | rewrite (bind_getitem _ _ _ _ _ (forward_total_DENSITY _ _)) in H
    | rewrite (bind_getitem _ _ _ _ _ (forward_total_RGB _ _)) in H ].

(** [X3] [get_outputs] returns a dictionary exactly when the seven
    attributes it reads (the two samplers, the two fields and the three
    renderers) are set; on any other graph it raises, whatever the ray
    bundle. *)
Theorem get_outputs_returns_iff_populated (N : Numerics)
    (ray_bundle : RayBundle) (w : World) :
  (∃ outputs w', get_outputs ray_bundle w = (Ok outputs, w'))
  ↔ (∃ su sp fc ff rr ra rd, populated (self_ w) su sp fc ff rr ra rd).
Proof.
  split.
  - intros (outputs & w' & Hrun). unfold get_outputs in Hrun.
    destruct (sampler_uniform (self_ w)) as [su|] eqn:Hsu;
      [|run_in Hrun; discriminate Hrun].
    destruct (field_coarse (self_ w)) as [fc|] eqn:Hfc;
      [|run_in Hrun; discriminate Hrun].
    destruct (renderer_rgb (self_ w)) as [rr|] eqn:Hrr;
      [|run_in Hrun; discriminate Hrun].
    destruct (renderer_accumulation (self_ w)) as [ra|] eqn:Hra;
      [|run_in Hrun; discriminate Hrun].
    destruct (renderer_depth (self_ w)) as [rd|] eqn:Hrd;
      [|run_in Hrun; discriminate Hrun].
    destruct (sampler_pdf (self_ w)) as [sp|] eqn:Hsp;
      [|run_in Hrun; discriminate Hrun].
    destruct (field_fine (self_ w)) as [ff|] eqn:Hff;
      [|run_in Hrun; discriminate Hrun].
    by exists su, sp, fc, ff, rr, ra, rd.
  - intros (su & sp & fc & ff & rr & ra & rd & Hpop).
    eexists _, _. by apply get_outputs_populated.
Qed.

(** [X4] The coarse outputs do not depend on the fine stage: two graphs
    with the same uniform sampler, coarse field and renderers, run on the
    same ray bundle from the same generator state, return the same
    rgb_coarse, accumulation_coarse and depth_coarse, whatever their fine
    fields and PDF samplers are. *)
Theorem coarse_outputs_ignore_fine_stage (N : Numerics) (w1 w2 : World)
    (ray_bundle : RayBundle) (su : UniformSampler) (sp1 sp2 : PDFSampler)
    (fc ff1 ff2 : NeRFField) (rr : RGBRenderer) (ra : AccumulationRenderer)
    (rd : DepthRenderer) :
  populated (self_ w1) su sp1 fc ff1 rr ra rd →
  populated (self_ w2) su sp2 fc ff2 rr ra rd →
  rng w1 = rng w2 →
  ∃ outputs1 outputs2 w1' w2',
    get_outputs ray_bundle w1 = (Ok outputs1, w1')
    ∧ get_outputs ray_bundle w2 = (Ok outputs2, w2')
    ∧ outputs1 !! "rgb_coarse" = outputs2 !! "rgb_coarse"
    ∧ outputs1 !! "accumulation_coarse" = outputs2 !! "accumulation_coarse"
    ∧ outputs1 !! "depth_coarse" = outputs2 !! "depth_coarse".
Proof.
  intros Hpop1 Hpop2 Hrng.
  eexists _, _, _, _.
  split; [by apply get_outputs_populated|].
  split; [by apply get_outputs_populated|].
  unfold expected_outputs, coarse_weights, coarse_outputs, uniform_stage.
  rewrite Hrng. repeat split; by simplify_map_eq.
Qed.

Lemma coarse_outputs_ignore_fine_stage_witness :
  ∃ outputs1 outputs2 w1' w2',
    get_outputs (H:=probe) one_ray built_world = (Ok outputs1, w1')
    ∧ get_outputs (H:=probe) one_ray
        (with_self (set_field_fine small_field) built_world)
      = (Ok outputs2, w2')
    ∧ outputs1 !! "rgb_coarse" = outputs2 !! "rgb_coarse"
    ∧ outputs1 !! "accumulation_coarse" = outputs2 !! "accumulation_coarse"
    ∧ outputs1 !! "depth_coarse" = outputs2 !! "depth_coarse".
Proof.
  apply (coarse_outputs_ignore_fine_stage probe built_world
           (with_self (set_field_fine small_field) built_world) one_ray
           scenario_sampler {| pdf_num_samples := 8 |} {| pdf_num_samples := 8 |}
           built_field_coarse built_field_fine small_field
           {| background_color := Some WHITE |}
           mkAccumulationRenderer mkDepthRenderer).
  - by split.
  - by split.
  - reflexivity.
Defined.


Lemma get_loss_dict_run `{Numerics} (w : World)
    (outputs batch : gmap string RayTensor) (coarse fine pixels : RayTensor)
    (loss : MSELoss) :
  outputs !! "rgb_coarse" = Some coarse →
  outputs !! "rgb_fine" = Some fine →
  batch !! "pixels" = Some pixels →
  rgb_loss (self_ w) = Some loss →
  get_loss_dict outputs batch w
  = (Ok (<["aggregated_loss" :=
             get_aggregated_loss_from_loss_dict
               {[ "rgb_loss_coarse" := MSELoss_call loss pixels coarse;
                  "rgb_loss_fine" := MSELoss_call loss pixels fine ]}]>
           {[ "rgb_loss_coarse" := MSELoss_call loss pixels coarse;
              "rgb_loss_fine" := MSELoss_call loss pixels fine ]}), w).
Proof.
  intros Hcoarse Hfine Hpixels Hloss. unfold get_loss_dict.
  rewrite (bind_getitem _ _ _ _ _ Hcoarse), (bind_getitem _ _ _ _ _ Hpixels).
  erewrite bind_getattr by eassumption.
  rewrite (bind_getitem _ _ _ _ _ Hcoarse).
  erewrite bind_getattr by eassumption.
  rewrite (bind_getitem _ _ _ _ _ Hfine).
  cbv zeta. by rewrite insert_empty.
Qed.

(** [X6] What [get_outputs] returns is what [get_loss_dict] needs: on a
    graph whose modules and loss are set, and with a batch that holds
    pixels, the losses of a forward pass are computed without a KeyError,
    and the coarse and fine terms are the losses of the two rendered
    colours against the pixels. *)
Theorem forward_pass_then_losses (N : Numerics) (w : World)
    (ray_bundle : RayBundle) (batch : gmap string RayTensor)
    (pixels : RayTensor) (su : UniformSampler) (sp : PDFSampler)
    (fc ff : NeRFField) (rr : RGBRenderer) (ra : AccumulationRenderer)
    (rd : DepthRenderer) (loss : MSELoss) :
  populated (self_ w) su sp fc ff rr ra rd →
  rgb_loss (self_ w) = Some loss →
  batch !! "pixels" = Some pixels →
  ∃ (outputs : gmap string RayTensor) (w' : World) (losses : gmap string R)
    (coarse fine : RayTensor),
    get_outputs ray_bundle w = (Ok outputs, w')
    ∧ get_loss_dict outputs batch w' = (Ok losses, w')
    ∧ outputs !! "rgb_coarse" = Some coarse
    ∧ outputs !! "rgb_fine" = Some fine
    ∧ losses !! "rgb_loss_coarse" = Some (MSELoss_call loss pixels coarse)
    ∧ losses !! "rgb_loss_fine" = Some (MSELoss_call loss pixels fine).
Proof.
  intros Hpop Hloss Hpixels.
  eexists _, _, _, _, _.
  split; [by apply get_outputs_populated|].
  assert (Hcoarse : expected_outputs w ray_bundle su sp fc ff rr ra rd
                    !! "rgb_coarse" = Some _)
    by (unfold expected_outputs; by simplify_map_eq).
  assert (Hfine : expected_outputs w ray_bundle su sp fc ff rr ra rd
                  !! "rgb_fine" = Some _)
    by (unfold expected_outputs; by simplify_map_eq).
  split; [by eapply get_loss_dict_run|].
  split; [exact Hcoarse|]. split; [exact Hfine|].
  split; by simplify_map_eq.
Qed.

Lemma forward_pass_then_losses_witness :
  ∃ (outputs : gmap string RayTensor) (w' : World) (losses : gmap string R),
    get_outputs (H:=probe) one_ray built_world = (Ok outputs, w')
    ∧ get_loss_dict (H:=probe) outputs {[ "pixels" := [[0; 0; 0]%R] ]} w'
      = (Ok losses, w').
Proof.
  destruct (forward_pass_then_losses probe built_world one_ray
              {[ "pixels" := [[0; 0; 0]%R] ]} [[0; 0; 0]%R]
              _ _ _ _ _ _ _ mkMSELoss built_world_populated eq_refl
              (lookup_singleton_eq _ _))
    as (outputs & w' & losses & _ & _ & Hrun & Hloss & _).
  by exists outputs, w', losses.
Defined.

(** ** More on the field *)

(** [X7] What [NeRFField.forward] returns is determined by the positions
    and the directions of the samples: two inputs that agree on both give
    the same dictionary, whatever their depths and intervals. *)
Theorem forward_reads_positions_and_directions (N : Numerics)
    (self : NeRFField) (s1 s2 : RaySamples) :
  positions s1 = positions s2 → directions s1 = directions s2 →
  NeRFField_forward self s1 = NeRFField_forward self s2.
Proof.
  intros Hpos Hdir.
  unfold NeRFField_forward, rgb_mlp_out, mlp_rgb_input, base_mlp_out,
    encoded_dir, encoded_xyz.
  by rewrite Hpos, Hdir.
Qed.

Lemma forward_reads_positions_and_directions_witness :
  positions seen_along_x = positions seen_later
  ∧ directions seen_along_x = directions seen_later
  ∧ ts seen_along_x ≠ ts seen_later
  ∧ NeRFField_forward (H:=probe) small_field seen_along_x
    = NeRFField_forward (H:=probe) small_field seen_later.
Proof.
  split; [reflexivity|]. split; [reflexivity|]. split.
  - cbn. intros Heq. injection Heq as Heq. lra.
  - apply (forward_reads_positions_and_directions probe small_field);
      reflexivity.
Defined.

Lemma NeRFField_init_inv (n width : nat) (skips : list Z) (h h' : Heap)
    (f : NeRFField) :
  NeRFField_init n width skips h = (Ok f, h') →
  h' = h + (2 * n + 8)
  ∧ NeRFField_parameters f = params_from h (2 * n + 8)
  ∧ architecture f = architecture_of n width skips.
Proof.
  intros Hrun.
  destruct (forallb (skip_index_ok n) skips) eqn:Hok.
  - destruct (NeRFField_init_run n width skips h Hok)
      as (f' & Hrun' & Hparams & Harch).
    rewrite Hrun in Hrun'. injection Hrun' as Hf Hh. by subst f' h'.
  - unfold NeRFField_init, build_mlp_base in Hrun.
    change build_encodings with (build_encodings.1, build_encodings.2)
      in Hrun at 1.
    cbv beta iota zeta in Hrun. unfold mbind at 1, M_bind at 1 in Hrun.
    rewrite MLP_init_raises in Hrun by done. discriminate Hrun.
Qed.

(** [X8] Constructing a field only creates parameters: a field built with
    [num_layers] layers owns [2 * num_layers + 8] parameter objects, no
    two of them the same, each created by this construction (its identity
    is none of those in use before, and all are in use after). *)
Theorem constructed_field_owns_fresh_parameters (n width : nat)
    (skips : list Z) (h h' : Heap) (f : NeRFField) :
  NeRFField_init n width skips h = (Ok f, h') →
  length (NeRFField_parameters f) = 2 * n + 8
  ∧ h' = h + length (NeRFField_parameters f)
  ∧ NoDup (NeRFField_parameters f)
  ∧ Forall (λ p, h ≤ param_id p < h') (NeRFField_parameters f).
Proof.
  intros Hrun.
  destruct (NeRFField_init_inv _ _ _ _ _ _ Hrun) as (Hh & Hparams & _).
  subst h'. rewrite Hparams.
  assert (Hlen : length (params_from h (2 * n + 8)) = 2 * n + 8)
    by (unfold params_from; by rewrite length_fmap, length_seq).
  rewrite Hlen. split; [done|]. split; [done|]. split.
  - unfold params_from. apply NoDup_fmap_2; [by intros ?? [=]|apply NoDup_seq].
  - apply Forall_forall. intros p Hp. by apply elem_of_params_from.
Qed.

Lemma constructed_field_owns_fresh_parameters_witness :
  NeRFField_init 1 2 [] 0 = (Ok small_field, 10)
  ∧ length (NeRFField_parameters small_field) = 10
  ∧ NoDup (NeRFField_parameters small_field).
Proof.
  assert (Hrun : NeRFField_init 1 2 [] 0 = (Ok small_field, 10))
    by reflexivity.
  destruct (constructed_field_owns_fresh_parameters 1 2 [] 0 10 small_field
              Hrun) as (Hlen & _ & Hnodup & _).
  by split.
Defined.

Lemma channels_tmap {A} (n : nat) (f : A → Vec) (x : list (list A)) :
  Forall (Forall (λ a, length (f a) = n)) x → channels n (tmap f x).
Proof.
  intros Hx. unfold channels, tmap.
  apply Forall_fmap. eapply Forall_impl; [exact Hx|].
  intros row Hrow. by apply Forall_fmap.
Qed.

(** [X9] The modules of a constructed field fit together: when the
    encodings and the networks return vectors of the dimension they
    declare, and positions and directions are 3-vectors, [forward] hands
    to the base MLP, to the second MLP, to the RGB head and to the density
    head vectors of exactly the input dimension each was built with. *)
Theorem forward_respects_dimensions (N : Numerics) (n width : nat)
    (skips : list Z) (h h' : Heap) (f : NeRFField) (s : RaySamples) :
  NeRFField_init n width skips h = (Ok f, h') →
  well_shaped N → three_channels s →
  channels (mlp_in_dim (mlp_base f)) (encoded_xyz f s)
  ∧ channels (mlp_in_dim (mlp_rgb f)) (mlp_rgb_input f s)
  ∧ channels (rgb_head_in_dim (field_output_rgb f)) (rgb_mlp_out f s)
  ∧ channels (density_head_in_dim (field_output_density f)) (base_mlp_out f s).
Proof.
  intros (_ & _ & Harch)%NeRFField_init_inv [Henc Hmlp] Hs.
  assert (Hxyz : encoding_xyz f = build_encodings.1)
    by exact (f_equal (λ a, a.1.1.1.1.1.2) Harch).
  assert (Hdir : encoding_dir f = build_encodings.2)
    by exact (f_equal (λ a, a.1.1.1.1.2) Harch).
  assert (Hbase : MLP_architecture (mlp_base f) = _)
    by exact (f_equal (λ a, a.1.1.1.2) Harch).
  assert (Hrgb : MLP_architecture (mlp_rgb f) = _)
    by exact (f_equal (λ a, a.1.1.2) Harch).
  assert (Hhead_rgb : rgb_head_in_dim (field_output_rgb f) = width / 2)
    by exact (f_equal (λ a, a.1.2) Harch).
  assert (Hhead_density :
            density_head_in_dim (field_output_density f) = width)
    by exact (f_equal (λ a, a.2) Harch).
  assert (Hbase_in : mlp_in_dim (mlp_base f)
                     = NeRFEncoding_get_out_dim build_encodings.1)
    by exact (f_equal (λ a, a.1.1.1.1.1.1) Hbase).
  assert (Hbase_out : mlp_out_dim (mlp_base f) = width)
    by exact (f_equal (λ a, a.1.1.1.1.1.2) Hbase).
  assert (Hrgb_in : mlp_in_dim (mlp_rgb f)
                    = width + NeRFEncoding_get_out_dim build_encodings.2)
    by exact (f_equal (λ a, a.1.1.1.1.1.1) Hrgb).
  assert (Hrgb_out : mlp_out_dim (mlp_rgb f) = width / 2)
    by exact (f_equal (λ a, a.1.1.1.1.1.2) Hrgb).
  assert (Hsample : ∀ x,
            length (position x) = 3 ∧ length (direction x) = 3 →
            length (NeRFEncoding_call (encoding_xyz f) (position x))
            = mlp_in_dim (mlp_base f)
            ∧ length (MLP_call (mlp_base f)
                        (NeRFEncoding_call (encoding_xyz f) (position x)))
              = width
            ∧ length (NeRFEncoding_call (encoding_dir f) (direction x))
              = NeRFEncoding_get_out_dim build_encodings.2).
  { intros x [Hp Hd].
    assert (H1 : length (NeRFEncoding_call (encoding_xyz f) (position x))
                 = mlp_in_dim (mlp_base f)).
    { rewrite Hbase_in, <- Hxyz. apply Henc. by rewrite Hxyz. }
    split; [exact H1|]. split.
    - rewrite <- Hbase_out. by apply Hmlp.
    - rewrite <- Hdir. apply Henc. by rewrite Hdir. }
  assert (Hinput : ∀ x,
            length (position x) = 3 ∧ length (direction x) = 3 →
            length (NeRFEncoding_call (encoding_dir f) (direction x)
                    ++ MLP_call (mlp_base f)
                         (NeRFEncoding_call (encoding_xyz f) (position x)))
            = mlp_in_dim (mlp_rgb f)).
  { intros x Hx. destruct (Hsample x Hx) as (_ & Hb & Hd).
    rewrite length_app, Hb, Hd, Hrgb_in. lia. }
  split; [|split; [|split]].
  - unfold encoded_xyz, positions. rewrite tmap_tmap. apply channels_tmap.
    eapply Forall_impl; [exact Hs|]. intros row Hrow.
    eapply Forall_impl; [exact Hrow|]. intros x Hx. by apply Hsample.
  - rewrite mlp_rgb_input_per_sample. apply channels_tmap.
    eapply Forall_impl; [exact Hs|]. intros row Hrow.
    eapply Forall_impl; [exact Hrow|]. exact Hinput.
  - unfold rgb_mlp_out. rewrite mlp_rgb_input_per_sample, tmap_tmap.
    apply channels_tmap.
    eapply Forall_impl; [exact Hs|]. intros row Hrow.
    eapply Forall_impl; [exact Hrow|]. intros x Hx. simpl.
    rewrite Hhead_rgb, <- Hrgb_out. apply Hmlp. by apply Hinput.
  - unfold base_mlp_out, encoded_xyz, positions. rewrite !tmap_tmap.
    apply channels_tmap.
    eapply Forall_impl; [exact Hs|]. intros row Hrow.
    eapply Forall_impl; [exact Hrow|]. intros x Hx. simpl.
    rewrite Hhead_density. by apply Hsample.
Qed.

Lemma shaped_well_shaped : well_shaped shaped.
Proof. split; intros; apply length_replicate. Qed.

Lemma forward_respects_dimensions_witness :
  NeRFField_init 1 2 [] 0 = (Ok small_field, 10)
  ∧ well_shaped shaped ∧ three_channels seen_along_x
  ∧ channels (mlp_in_dim (mlp_rgb small_field))
      (mlp_rgb_input (H:=shaped) small_field seen_along_x).
Proof.
  assert (Hrun : NeRFField_init 1 2 [] 0 = (Ok small_field, 10))
    by reflexivity.
  assert (Hs : three_channels seen_along_x) by (by repeat constructor).
  split; [exact Hrun|]. split; [exact shaped_well_shaped|].
  split; [exact Hs|].
  exact (proj1 (proj2 (forward_respects_dimensions shaped 1 2 [] 0 10
                         small_field seen_along_x Hrun
                         shaped_well_shaped Hs))).
Defined.

(** ** The test-image hook *)

Section test_image_properties.
Context {Image : Type} `{Imaging Image}.

Lemma bind_write_event {B} (e : Event Image) (k : () → M (Session Image) B)
    (s : Session Image) :
  (write_event e ≫= k) s
  = k () {| world := world s; effects := effects s ++ [WriteEvent e] |}.
Proof. reflexivity. Qed.

Lemma bind_update_stats {B} (name : Stats) (value : R) (step : nat)
    (k : () → M (Session Image) B) (s : Session Image) :
  (update_stats name value step ≫= k) s
  = k () {| world := world s;
            effects := effects s ++ [UpdateStats name value step] |}.
Proof. reflexivity. Qed.

Lemma bind_gets {S A B} (f : S → A) (k : A → M S B) (s : S) :
  (gets f ≫= k) s = k (f s) s.
Proof. reflexivity. Qed.
End test_image_properties.

Ltac run_hook :=
  repeat first
    [ erewrite bind_getitem by eassumption
    | rewrite bind_getitem_none by eassumption
    | rewrite bind_write_event; cbn [world effects]
    | rewrite bind_update_stats; cbn [world effects]
    | rewrite bind_gets; cbn [world effects] ].

Ltac run_hook_in H :=
  repeat first
    [ erewrite bind_getitem in H by eassumption
    | rewrite bind_getitem_none in H by eassumption
    | rewrite bind_write_event in H; cbn [world effects] in H
    | rewrite bind_update_stats in H; cbn [world effects] in H
    | rewrite bind_gets in H; cbn [world effects] in H ].

Lemma hook_run_all {Image : Type} `{Imaging Image} (image_idx step : nat)
    (image : Image) (outputs : gmap string Image) (s : Session Image)
    (rc rf ac af dc df : Image) :
  outputs !! "rgb_coarse" = Some rc → outputs !! "rgb_fine" = Some rf →
  outputs !! "accumulation_coarse" = Some ac →
  outputs !! "accumulation_fine" = Some af →
  outputs !! "depth_coarse" = Some dc → outputs !! "depth_fine" = Some df →
  ∃ new : list (Effect Image),
    log_test_image_outputs image_idx step image outputs s
    = (Ok (psnr (to_metric_layout image) (to_metric_layout rf)),
       {| world := world s; effects := effects s ++ new |})
    ∧ effect_group <$> new = hook_groups
    ∧ Forall (λ e, effect_step e = step) new
    ∧ UpdateStats CURR_TEST_PSNR
        (psnr (to_metric_layout image) (to_metric_layout rf)) step ∈ new.
Proof.
  intros Hrc Hrf Hac Haf Hdc Hdf.
  eexists. split.
  - unfold log_test_image_outputs. run_hook.
    rewrite <- !(assoc_L (++)). reflexivity.
  - split; [reflexivity|]. split; [by repeat constructor|].
    do 4 apply list_elem_of_further. apply list_elem_of_here.
Qed.





Lemma hook_returns_inv {Image : Type} `{Imaging Image} (image_idx step : nat)
    (image : Image) (outputs : gmap string Image) (s s' : Session Image)
    (value : R) :
  log_test_image_outputs image_idx step image outputs s = (Ok value, s') →
  ∃ rc rf ac af dc df,
    outputs !! "rgb_coarse" = Some rc ∧ outputs !! "rgb_fine" = Some rf
    ∧ outputs !! "accumulation_coarse" = Some ac
    ∧ outputs !! "accumulation_fine" = Some af
    ∧ outputs !! "depth_coarse" = Some dc
    ∧ outputs !! "depth_fine" = Some df.
Proof.
  intros Hrun. unfold log_test_image_outputs in Hrun.
  destruct (outputs !! "rgb_coarse") as [rc|] eqn:Hrc;
    [|run_hook_in Hrun; discriminate Hrun].
  destruct (outputs !! "rgb_fine") as [rf|] eqn:Hrf;
    [|run_hook_in Hrun; discriminate Hrun].
  destruct (outputs !! "accumulation_coarse") as [ac|] eqn:Hac;
    [|run_hook_in Hrun; discriminate Hrun].
  destruct (outputs !! "accumulation_fine") as [af|] eqn:Haf;
    [|run_hook_in Hrun; discriminate Hrun].
  destruct (outputs !! "depth_coarse") as [dc|] eqn:Hdc;
    [|run_hook_in Hrun; discriminate Hrun].
  destruct (outputs !! "depth_fine") as [df|] eqn:Hdf;
    [|run_hook_in Hrun; discriminate Hrun].
  by exists rc, rf, ac, af, dc, df.
Qed.



(** ** Names of the events *)

Lemma chars_app (s1 s2 : string) :
  String.list_ascii_of_string (s1 +:+ s2)
  = String.list_ascii_of_string s1 ++ String.list_ascii_of_string s2.
Proof. induction s1 as [|c s1 IH]; simpl; [done|]. by rewrite IH. Qed.

Lemma chars_inj (s1 s2 : string) :
  String.list_ascii_of_string s1 = String.list_ascii_of_string s2 → s1 = s2.
Proof.
  intros Heq.
  rewrite <- (String.string_of_list_ascii_of_string s1),
    <- (String.string_of_list_ascii_of_string s2).
  by rewrite Heq.
Qed.

Lemma framed_number_inj (before after : string) (i j : nat) :
  before +:+ pretty i +:+ after = before +:+ pretty j +:+ after → i = j.
Proof.
  intros Heq%(inj (String.append before)).
  apply (f_equal String.list_ascii_of_string) in Heq.
  rewrite !chars_app in Heq. apply app_inv_tail, chars_inj in Heq.
  by apply (inj pretty) in Heq.
Qed.

Lemma prefixed_number_inj (before : string) (i j : nat) :
  before +:+ pretty i = before +:+ pretty j → i = j.
Proof. intros Heq%(inj (String.append before)). by apply (inj pretty) in Heq. Qed.

Lemma coarse_name_is_no_fine_name (i j : nat) :
  "val_" +:+ pretty i +:+ "-coarse" ≠ "val_idx_" +:+ pretty j +:+ "-fine".
Proof.
  intros Heq. apply (f_equal String.list_ascii_of_string) in Heq.
  rewrite !chars_app in Heq. apply (f_equal reverse) in Heq.
  rewrite !reverse_app in Heq.
  change (reverse (String.list_ascii_of_string "-coarse"))
    with (String.list_ascii_of_string "esraoc-") in Heq.
  change (reverse (String.list_ascii_of_string "-fine"))
    with (String.list_ascii_of_string "enif-") in Heq.
  simpl in Heq. discriminate Heq.
Qed.

Lemma hook_run_labels {Image : Type} `{Imaging Image} (image_idx step : nat)
    (image : Image) (outputs : gmap string Image) (s s' : Session Image)
    (value : R) :
  log_test_image_outputs image_idx step image outputs s = (Ok value, s') →
  ∃ new : list (Effect Image),
    effects s' = effects s ++ new
    ∧ omap effect_label new
      = [ ("val_img", "image_idx_" +:+ pretty image_idx +:+ "-rgb_coarse_fine");
          ("val_accumulation", "image_idx_" +:+ pretty image_idx);
          ("val_depth", "image_idx_" +:+ pretty image_idx);
          ("psnr", "val_" +:+ pretty image_idx +:+ "-coarse");
          ("psnr", "val_idx_" +:+ pretty image_idx +:+ "-fine");
          ("ssim", "val_idx_" +:+ pretty image_idx);
          ("lpips", "val_idx_" +:+ pretty image_idx) ].
Proof.
  intros Hrun.
  destruct (hook_returns_inv _ _ _ _ _ _ _ Hrun)
    as (rc & rf & ac & af & dc & df & Hrc & Hrf & Hac & Haf & Hdc & Hdf).
  unfold log_test_image_outputs in Hrun. run_hook_in Hrun.
  rewrite <- !(assoc_L (++)) in Hrun.
  injection Hrun as _ <-. eexists. split; reflexivity.
Qed.

(** [X13] The names under which [log_test_image_outputs] writes tell the
    images apart: an event written for one image index and an event
    written for another never have both the same group and the same
    name. *)
Theorem hook_names_tell_images_apart {Image : Type} (I : Imaging Image)
    (i j step1 step2 : nat) (image1 image2 : Image)
    (outputs1 outputs2 : gmap string Image) (s1 s2 s1' s2' : Session Image)
    (value1 value2 : R) (new1 new2 : list (Effect Image)) :
  i ≠ j →
  log_test_image_outputs i step1 image1 outputs1 s1 = (Ok value1, s1') →
  effects s1' = effects s1 ++ new1 →
  log_test_image_outputs j step2 image2 outputs2 s2 = (Ok value2, s2') →
  effects s2' = effects s2 ++ new2 →
  ∀ e1 e2 : Event Image,
    WriteEvent e1 ∈ new1 → WriteEvent e2 ∈ new2 →
    event_group e1 = event_group e2 → event_name e1 ≠ event_name e2.
Proof.
  intros Hij Hrun1 Hnew1 Hrun2 Hnew2 e1 e2 He1 He2 Hgroup Hname.
  destruct (hook_run_labels _ _ _ _ _ _ _ Hrun1) as (new1' & Heq1 & Hlabels1).
  destruct (hook_run_labels _ _ _ _ _ _ _ Hrun2) as (new2' & Heq2 & Hlabels2).
  rewrite Hnew1 in Heq1. apply app_inv_head in Heq1. subst new1'.
  rewrite Hnew2 in Heq2. apply app_inv_head in Heq2. subst new2'.
  assert (Hl1 : (event_group e1, event_name e1) ∈ omap effect_label new1)
    by (apply list_elem_of_omap; by exists (WriteEvent e1)).
  assert (Hl2 : (event_group e2, event_name e2) ∈ omap effect_label new2)
    by (apply list_elem_of_omap; by exists (WriteEvent e2)).
  rewrite Hlabels1 in Hl1. rewrite Hlabels2 in Hl2.
  rewrite <- Hgroup, <- Hname in Hl2. clear Hgroup Hname.
  apply Hij.
  repeat (apply elem_of_cons in Hl1 as [Hl1|Hl1]);
    try (by apply elem_of_nil in Hl1);
    injection Hl1 as Hg1 Hn1;
    repeat (apply elem_of_cons in Hl2 as [Hl2|Hl2]);
    try (by apply elem_of_nil in Hl2);
    injection Hl2 as Hg2 Hn2;
    rewrite Hg1 in Hg2; try discriminate Hg2;
    rewrite Hn1 in Hn2;
    first [ exact (framed_number_inj _ _ _ _ Hn2)
          | exact (prefixed_number_inj _ _ _ Hn2)
          | exfalso; exact (coarse_name_is_no_fine_name _ _ Hn2)
          | exfalso; symmetry in Hn2;
            exact (coarse_name_is_no_fine_name _ _ Hn2) ].
Qed.

Lemma white_outputs_lookups :
  white_outputs !! "rgb_coarse" = Some [WHITE]
  ∧ white_outputs !! "rgb_fine" = Some [WHITE]
  ∧ white_outputs !! "accumulation_coarse" = Some [[0%R]]
  ∧ white_outputs !! "accumulation_fine" = Some [[0%R]]
  ∧ white_outputs !! "depth_coarse" = Some [[0%R]]
  ∧ white_outputs !! "depth_fine" = Some [[0%R]].
Proof. unfold white_outputs. repeat split; by simplify_map_eq. Qed.

Lemma hook_names_tell_images_apart_witness :
  ∃ new1 new2 : list (Effect RayTensor),
    effects (log_test_image_outputs (H:=plain_imaging) 7 100 [WHITE]
               white_outputs fresh_session).2 = new1
    ∧ effects (log_test_image_outputs (H:=plain_imaging) 8 100 [WHITE]
                 white_outputs fresh_session).2 = new2
    ∧ ∀ e1 e2 : Event RayTensor,
        WriteEvent e1 ∈ new1 → WriteEvent e2 ∈ new2 →
        event_group e1 = event_group e2 → event_name e1 ≠ event_name e2.
Proof.
  destruct white_outputs_lookups as (Hrc & Hrf & Hac & Haf & Hdc & Hdf).
  destruct (hook_run_all (H:=plain_imaging) 7 100 [WHITE] white_outputs
              fresh_session _ _ _ _ _ _ Hrc Hrf Hac Haf Hdc Hdf)
    as (new1 & Hrun1 & _).
  destruct (hook_run_all (H:=plain_imaging) 8 100 [WHITE] white_outputs
              fresh_session _ _ _ _ _ _ Hrc Hrf Hac Haf Hdc Hdf)
    as (new2 & Hrun2 & _).
  exists new1, new2.
  split; [by rewrite Hrun1|]. split; [by rewrite Hrun2|].
  assert (Hij : 7 ≠ 8) by lia.
  exact (hook_names_tell_images_apart plain_imaging 7 8 100 100
           [WHITE] [WHITE] white_outputs white_outputs
           fresh_session fresh_session _ _ _ _ new1 new2
           Hij Hrun1 eq_refl Hrun2 eq_refl).
Defined.
